(** * ocr_screen_extractor: the OCR adapter and the capture controller

    A shallow embedding of [app/ocr_utils.py] and [app/main_app.py], and the
    properties of the two files proved on it.

    - A Python [str] is a [string]: its characters are the code points of
      the text, taken below 256.
    - An exception is an instance of Python's [Exception]; a call that may
      raise returns an [outcome], and [try ... except Exception] is
      [try_except].
    - The modules [ocr_utils] and [main_app] give what the calls compute
      while the console takes every line, every engine can be built and
      nothing is raised outside [Exception].  The modules [ocr_utils_io]
      and [main_app_io] follow the same source lines with the rest: a
      [print] that raises, a constructor [PaddleOCR(...)] that raises, and
      exceptions outside [Exception] ([SystemExit], [KeyboardInterrupt]).
    - The recognition engine and the GUI toolkit are outside the program.
      The model keeps of their objects what the program reads and writes,
      and takes what they answer ([predict], [grabWindow], [save], the file
      system) as a parameter of the call.
    - The methods of a class take and return the state of the object. *)

From Stdlib Require Import Ascii String ZArith Lia.
From stdpp Require Import gmap strings list fin_maps pretty.

Local Open Scope string_scope.
#[local] Set Warnings "-register-all".

(** ** Python values and control flow shared by both files *)

(** An instance of Python's [Exception]; [exn_msg] is what [str(e)] gives. *)
Record exn := Exception { exn_msg : string }.

(** The result of a call: it returns a value or raises. *)
Inductive outcome (A : Type) : Type :=
| Returns (a : A)
| Raises (e : exn).
Arguments Returns {A} a.
Arguments Raises {A} e.

#[global] Instance outcome_ret : MRet outcome := fun A a => Returns a.
#[global] Instance outcome_bind : MBind outcome := fun A B k c =>
  match c with
  | Returns a => k a
  | Raises e => Raises e
  end.

(** [try: body  except Exception as e: handler e]. *)
Definition try_except {A} (body : outcome A) (handler : exn -> outcome A) : outcome A :=
  match body with
  | Returns a => Returns a
  | Raises e => handler e
  end.

(** The values an untrusted engine result is built from.  A dict is keyed by
    strings; [PyOther] stands for any object of another type (a score, an
    array of box coordinates). *)
Inductive pyval : Type :=
| PyNone
| PyStr (s : string)
| PyList (items : list pyval)
| PyTuple (items : list pyval)
| PyDict (entries : gmap string pyval)
| PyOther (tag : nat).

(** The line feed, and Python's truth value of a [str] and of an optional
    [str] ([None] and the empty string are false). *)
Definition LF_char : ascii := "010"%char.
Definition LF : string := String LF_char "".

Definition str_bool (s : string) : bool :=
  match s with
  | "" => false
  | String _ _ => true
  end.

Definition opt_str_bool (o : option string) : bool :=
  match o with
  | None => false
  | Some s => str_bool s
  end.

(** [str.isspace] on the code points below 256: the characters [str.strip()]
    removes. *)
Definition isspace (c : ascii) : bool :=
  match c with
  | "009" | "010" | "011" | "012" | "013"
  | "028" | "029" | "030" | "031" | " " | "133" | "160" => true
  | _ => false
  end%char.

Fixpoint lstrip (s : string) : string :=
  match s with
  | "" => ""
  | String c s' => if isspace c then lstrip s' else s
  end.

Fixpoint rstrip (s : string) : string :=
  match s with
  | "" => ""
  | String c s' =>
      match rstrip s' with
      | "" => if isspace c then "" else String c ""
      | r => String c r
      end
  end.

(** [s.strip()]. *)
Definition strip (s : string) : string := rstrip (lstrip s).

(** [sep.join(parts)]. *)
Definition join (sep : string) (parts : list string) : string :=
  String.concat sep parts.
Arguments join : simpl never.

(** ** app/ocr_utils.py *)
Module ocr_utils.

(** The engine object built by [PaddleOCR(lang=..., ...)].  In this module
    the construction returns; a construction that raises is in
    [ocr_utils_io].  [instance_id] is the identity of the object: two
    constructions give two objects. *)
Record PaddleOCR := {
  lang : string;
  use_textline_orientation : bool;
  use_doc_orientation_classify : bool;
  use_doc_unwarping : bool;
  instance_id : nat
}.

(** [OCRProcessor].  [ocr_instance] is [None] when the attribute is falsy
    (the case [process_image] guards against); [instances_created] counts the
    constructions, to number the objects. *)
Record OCRProcessor := {
  current_lang : string;
  ocr_instance : option PaddleOCR;
  instances_created : nat
}.

Definition _initialize_ocr_instance (self : OCRProcessor) : OCRProcessor :=
  {| current_lang := current_lang self;
     ocr_instance :=
       Some {| lang := current_lang self;
               use_textline_orientation := false;
               use_doc_orientation_classify := false;
               use_doc_unwarping := false;
               instance_id := instances_created self |};
     instances_created := S (instances_created self) |}.

(** [OCRProcessor(lang)]. *)
Definition __init__ (lang : string) : OCRProcessor :=
  _initialize_ocr_instance
    {| current_lang := lang; ocr_instance := None; instances_created := 0 |}.

Definition set_language (self : OCRProcessor) (lang : string) : OCRProcessor :=
  if bool_decide (lang ≠ current_lang self) then
    _initialize_ocr_instance
      {| current_lang := lang;
         ocr_instance := ocr_instance self;
         instances_created := instances_created self |}
  else self.

(** What reading an attribute of an object does. *)
Inductive attr_access : Type :=
| NoAttribute
| AttributeRaises (e : exn)
| Attribute (v : pyval).

(** One element of the sequence [predict] returns, as far as [process_image]
    looks at it: the attribute [json], the items when the object is a [list],
    and [str(res_obj)]. *)
Record res_obj := {
  obj_json : attr_access;
  obj_list : option (list pyval);
  obj_str : outcome string
}.

Definition line_sep : string := LF.
Definition region_sep : string := LF ++ "---" ++ LF.

(** The list under [res_obj.json['res']['rec_texts']], when every test on the
    way holds.  [hasattr] hides only a missing attribute; another exception
    of the property leaves the [try]. *)
Definition rec_texts_of (o : res_obj) : outcome (option (list pyval)) :=
  match obj_json o with
  | NoAttribute => Returns None
  | AttributeRaises e => Raises e
  | Attribute (PyDict json_data) =>
      match json_data !! "res" with
      | Some (PyDict res_content) =>
          match res_content !! "rec_texts" with
          | Some (PyList rec_texts) => Returns (Some rec_texts)
          | _ => Returns None
          end
      | _ => Returns None
      end
  | Attribute _ => Returns None
  end.

(** [text for text in rec_texts if isinstance(text, str) and text.strip()] *)
Definition meaningful_text (text : pyval) : option string :=
  match text with
  | PyStr s => if str_bool (strip s) then Some s else None
  | _ => None
  end.

Definition meaningful_texts (rec_texts : list pyval) : list string :=
  omap meaningful_text rec_texts.

(** The body of the inner [try]: the value of [item_text] at its end. *)
Definition json_strategy (o : res_obj) : outcome (option string) :=
  rec_texts ← rec_texts_of o;
  match rec_texts with
  | None => Returns None
  | Some rec_texts =>
      match meaningful_texts rec_texts with
      | [] => Returns None
      | texts => Returns (Some (join line_sep texts))
      end
  end.

(** The inner [try ... except Exception as e_json]: [item_text] stays [None]
    when the body raises. *)
Definition item_text_from_json (o : res_obj) : option string :=
  match json_strategy o with
  | Returns item_text => item_text
  | Raises _ => None
  end.

(** The text of one [line_info] of the legacy shape [[box, (text, score)]]. *)
Definition line_info_text (line_info : pyval) : option string :=
  match line_info with
  | PyList [_; PyTuple [PyStr text; _]] => Some text
  | _ => None
  end.

Definition line_fragment (line_info : pyval) : option string :=
  match line_info_text line_info with
  | Some text => if str_bool (strip text) then Some (strip text) else None
  | None => None
  end.

Definition current_res_lines_texts (lines : list pyval) : list string :=
  omap line_fragment lines.

(** The fallback: taken when [item_text] is falsy and the object is a list. *)
Definition list_strategy (o : res_obj) (item_text : option string) : option string :=
  match obj_list o with
  | Some lines =>
      if negb (opt_str_bool item_text) then
        match current_res_lines_texts lines with
        | [] => item_text
        | texts => Some (join line_sep texts)
        end
      else item_text
  | None => item_text
  end.

(** One turn of the loop over [prediction_results]: the text to append, or
    [None] after the diagnostic print, which evaluates [str(res_obj)]. *)
Definition extract_item (o : res_obj) : outcome (option string) :=
  let item_text := list_strategy o (item_text_from_json o) in
  if opt_str_bool item_text then Returns item_text
  else _ ← obj_str o; Returns None.

Fixpoint collect_texts (results : list res_obj) (all_extracted_texts : list string)
  : outcome (list string) :=
  match results with
  | [] => Returns all_extracted_texts
  | res_obj :: rest =>
      item_text ← extract_item res_obj;
      match item_text with
      | Some text => collect_texts rest (all_extracted_texts ++ [text])%list
      | None => collect_texts rest all_extracted_texts
      end
  end.

Section process_image.
(** The files that exist, and the engine's [predict]: [Returns None] is a
    call that returns [None]. *)
Variable fs : gset string.
Variable predict : PaddleOCR -> string -> outcome (option (list res_obj)).

Definition os_path_exists (path : string) : bool := bool_decide (path ∈ fs).

(** The body of the outer [try]. *)
Definition process_image_body (engine : PaddleOCR) (image_path : string)
  : outcome (option string) :=
  prediction_results ← predict engine image_path;
  match prediction_results with
  | None | Some [] => Returns None
  | Some results =>
      all_extracted_texts ← collect_texts results [];
      match all_extracted_texts with
      | [] => Returns None
      | texts => Returns (Some (join region_sep texts))
      end
  end.

(** [process_image], as far as its result goes: without the lines it
    prints, and with a [predict] that raises within [Exception].  The
    prints and the exits are in [ocr_utils_io.process_image]. *)
Definition process_image (self : OCRProcessor) (image_path : string)
  : outcome (option string) :=
  match ocr_instance self with
  | None => Returns None
  | Some engine =>
      if negb (os_path_exists image_path) then Returns None
      else try_except (process_image_body engine image_path)
                      (fun _ => Returns None)
  end.
End process_image.

End ocr_utils.

(** ** app/main_app.py *)
Module main_app.
Import ocr_utils.

(** The directory of the file is taken to be [app]. *)
Definition SCREENSHOT_TEMP_DIR : string := "app/temp_screenshots".
Definition DEFAULT_SCREENSHOT_PATH : string :=
  SCREENSHOT_TEMP_DIR ++ "/latest_screenshot.png".

(** The dict literal, in the order it is written ([keys()] keeps it). *)
Definition AVAILABLE_LANGUAGES_items : list (string * string) :=
  [ ("English", "en");
    ("Chinese (Simplified)", "ch");
    ("French", "fr");
    ("German", "de");
    ("Japanese", "japan");
    ("Korean", "korean") ].

Definition AVAILABLE_LANGUAGES : gmap string string :=
  list_to_map AVAILABLE_LANGUAGES_items.

Definition DEFAULT_LANGUAGE : string := "English".

(** [AVAILABLE_LANGUAGES[DEFAULT_LANGUAGE]]; the key is in the literal. *)
Definition DEFAULT_LANGUAGE_code : string :=
  default "" (AVAILABLE_LANGUAGES !! DEFAULT_LANGUAGE).

(** *** The toolkit objects the controller holds *)

Record QPoint := { px : Z; py : Z }.
Record QRect := { x : Z; y : Z; width : Z; height : Z }.

(** A pixmap: null, the pixels of an image (identified by a number), or
    those pixels scaled to the label. *)
Inductive QPixmap : Type :=
| NullPixmap
| Pixels (image : nat)
| ScaledPixels (image : nat).

Definition isNull (p : QPixmap) : bool :=
  match p with
  | NullPixmap => true
  | _ => false
  end.

Definition scaled (p : QPixmap) : QPixmap :=
  match p with
  | NullPixmap => NullPixmap
  | Pixels image | ScaledPixels image => ScaledPixels image
  end.

(** A [QLabel] shows one content.  Qt documents both setters that way:
    setting the text clears any previous content, and setting the pixmap
    clears any previous content. *)
Inductive QLabel : Type :=
| LabelText (text : string)
| LabelPixmap (pixmap : QPixmap).

Definition setText (_ : QLabel) (text : string) : QLabel := LabelText text.
Definition setPixmap (_ : QLabel) (pixmap : QPixmap) : QLabel := LabelPixmap pixmap.

(** The text a label shows; a label that holds a pixmap shows no text. *)
Definition label_text (l : QLabel) : string :=
  match l with
  | LabelText text => text
  | LabelPixmap _ => ""
  end.

(** A combo box that is not editable. *)
Record QComboBox := { items : list string; currentText : string }.

Definition addItem (c : QComboBox) (text : string) : QComboBox :=
  {| items := items c ++ [text];
     currentText := match items c with
                    | [] => text
                    | _ => currentText c
                    end |}.

(** [setCurrentText] selects the item with that text, if there is one. *)
Definition setCurrentText (c : QComboBox) (text : string) : QComboBox :=
  if bool_decide (text ∈ items c)
  then {| items := items c; currentText := text |}
  else c.

(** The settings store, with the three keys the program uses, each absent or
    of the type the program writes. *)
Record QSettings := {
  geometry_value : option (list Byte.byte);
  language_value : option string;
  last_screenshot_path_value : option string
}.

(** What a file holds: an image [QPixmap] can load, or something else. *)
Inductive file : Type :=
| PngImage (image : nat)
| OtherData.

(** [OCRWorker], a [QThread]: the path it was given and whether it runs. *)
Record OCRWorker := { image_path : string; isRunning : bool }.

(** The window with its widgets.  [text_area] is the string last given to
    [QTextEdit.setText]; what the widget shows of it is [toPlainText]
    below.  [files] holds the files the window reaches through
    [os.path.exists], [QPixmap(path)] and [pixmap.save]; the settings store
    is the attribute [settings], and its backing file, the directory made
    when the module is imported and the model files the engine downloads
    are not part of [files].  [workers_started] is the number of
    [OCRWorker] threads started so far. *)
Record ScreenshotApp := {
  geometry : QRect;
  settings : QSettings;
  ocr_processor : OCRProcessor;
  current_screenshot_path : option string;
  ocr_worker_thread : option OCRWorker;
  text_area : string;
  screenshot_label : QLabel;
  language_combo : QComboBox;
  scan_button : bool;
  files : gmap string file;
  workers_started : nat
}.

(** The display at the time of one capture: whether there is a primary
    screen, what [screen.grabWindow(0)] gives with the window at a position,
    and what [pixmap.save] gives. *)
Record Display := {
  primaryScreen : bool;
  grabWindow : QPoint -> outcome nat;
  save : nat -> string -> outcome bool
}.

(** Qt's [saveGeometry] and [restoreGeometry]; [None] is a blob Qt refuses,
    which leaves the window as it is. *)
Class GeometryCodec := {
  saveGeometry : QRect -> list Byte.byte;
  restoreGeometry : list Byte.byte -> option QRect
}.

(** Qt restores what it saved, and a saved blob is not empty. *)
Class GeometryCodecLaws (codec : GeometryCodec) : Prop := {
  restore_save : forall g, restoreGeometry (saveGeometry g) = Some g;
  save_nonempty : forall g, saveGeometry g <> []
}.

(** *** Assignments to one attribute of the window *)

Definition set_geometry (self : ScreenshotApp) (v : QRect) : ScreenshotApp :=
  {| geometry := v;
     settings := settings self;
     ocr_processor := ocr_processor self;
     current_screenshot_path := current_screenshot_path self;
     ocr_worker_thread := ocr_worker_thread self;
     text_area := text_area self;
     screenshot_label := screenshot_label self;
     language_combo := language_combo self;
     scan_button := scan_button self;
     files := files self;
     workers_started := workers_started self |}.

Definition set_settings (self : ScreenshotApp) (v : QSettings) : ScreenshotApp :=
  {| geometry := geometry self;
     settings := v;
     ocr_processor := ocr_processor self;
     current_screenshot_path := current_screenshot_path self;
     ocr_worker_thread := ocr_worker_thread self;
     text_area := text_area self;
     screenshot_label := screenshot_label self;
     language_combo := language_combo self;
     scan_button := scan_button self;
     files := files self;
     workers_started := workers_started self |}.

Definition set_ocr_processor (self : ScreenshotApp) (v : OCRProcessor) : ScreenshotApp :=
  {| geometry := geometry self;
     settings := settings self;
     ocr_processor := v;
     current_screenshot_path := current_screenshot_path self;
     ocr_worker_thread := ocr_worker_thread self;
     text_area := text_area self;
     screenshot_label := screenshot_label self;
     language_combo := language_combo self;
     scan_button := scan_button self;
     files := files self;
     workers_started := workers_started self |}.

Definition set_current_screenshot_path (self : ScreenshotApp) (v : option string) : ScreenshotApp :=
  {| geometry := geometry self;
     settings := settings self;
     ocr_processor := ocr_processor self;
     current_screenshot_path := v;
     ocr_worker_thread := ocr_worker_thread self;
     text_area := text_area self;
     screenshot_label := screenshot_label self;
     language_combo := language_combo self;
     scan_button := scan_button self;
     files := files self;
     workers_started := workers_started self |}.

Definition set_ocr_worker_thread (self : ScreenshotApp) (v : option OCRWorker) : ScreenshotApp :=
  {| geometry := geometry self;
     settings := settings self;
     ocr_processor := ocr_processor self;
     current_screenshot_path := current_screenshot_path self;
     ocr_worker_thread := v;
     text_area := text_area self;
     screenshot_label := screenshot_label self;
     language_combo := language_combo self;
     scan_button := scan_button self;
     files := files self;
     workers_started := workers_started self |}.

Definition set_text_area (self : ScreenshotApp) (v : string) : ScreenshotApp :=
  {| geometry := geometry self;
     settings := settings self;
     ocr_processor := ocr_processor self;
     current_screenshot_path := current_screenshot_path self;
     ocr_worker_thread := ocr_worker_thread self;
     text_area := v;
     screenshot_label := screenshot_label self;
     language_combo := language_combo self;
     scan_button := scan_button self;
     files := files self;
     workers_started := workers_started self |}.

Definition set_screenshot_label (self : ScreenshotApp) (v : QLabel) : ScreenshotApp :=
  {| geometry := geometry self;
     settings := settings self;
     ocr_processor := ocr_processor self;
     current_screenshot_path := current_screenshot_path self;
     ocr_worker_thread := ocr_worker_thread self;
     text_area := text_area self;
     screenshot_label := v;
     language_combo := language_combo self;
     scan_button := scan_button self;
     files := files self;
     workers_started := workers_started self |}.

Definition set_language_combo (self : ScreenshotApp) (v : QComboBox) : ScreenshotApp :=
  {| geometry := geometry self;
     settings := settings self;
     ocr_processor := ocr_processor self;
     current_screenshot_path := current_screenshot_path self;
     ocr_worker_thread := ocr_worker_thread self;
     text_area := text_area self;
     screenshot_label := screenshot_label self;
     language_combo := v;
     scan_button := scan_button self;
     files := files self;
     workers_started := workers_started self |}.

Definition set_scan_button (self : ScreenshotApp) (v : bool) : ScreenshotApp :=
  {| geometry := geometry self;
     settings := settings self;
     ocr_processor := ocr_processor self;
     current_screenshot_path := current_screenshot_path self;
     ocr_worker_thread := ocr_worker_thread self;
     text_area := text_area self;
     screenshot_label := screenshot_label self;
     language_combo := language_combo self;
     scan_button := v;
     files := files self;
     workers_started := workers_started self |}.

Definition set_files (self : ScreenshotApp) (v : gmap string file) : ScreenshotApp :=
  {| geometry := geometry self;
     settings := settings self;
     ocr_processor := ocr_processor self;
     current_screenshot_path := current_screenshot_path self;
     ocr_worker_thread := ocr_worker_thread self;
     text_area := text_area self;
     screenshot_label := screenshot_label self;
     language_combo := language_combo self;
     scan_button := scan_button self;
     files := v;
     workers_started := workers_started self |}.

Definition set_workers_started (self : ScreenshotApp) (v : nat) : ScreenshotApp :=
  {| geometry := geometry self;
     settings := settings self;
     ocr_processor := ocr_processor self;
     current_screenshot_path := current_screenshot_path self;
     ocr_worker_thread := ocr_worker_thread self;
     text_area := text_area self;
     screenshot_label := screenshot_label self;
     language_combo := language_combo self;
     scan_button := scan_button self;
     files := files self;
     workers_started := v |}.

Definition set_geometry_value (st : QSettings) (v : option (list Byte.byte)) : QSettings :=
  {| geometry_value := v;
     language_value := language_value st;
     last_screenshot_path_value := last_screenshot_path_value st |}.

Definition set_language_value (st : QSettings) (v : option string) : QSettings :=
  {| geometry_value := geometry_value st;
     language_value := v;
     last_screenshot_path_value := last_screenshot_path_value st |}.

Definition set_last_screenshot_path_value (st : QSettings) (v : option string) : QSettings :=
  {| geometry_value := geometry_value st;
     language_value := language_value st;
     last_screenshot_path_value := v |}.

(** *** Helpers of the standard library and of the toolkit *)

Definition path_exists (self : ScreenshotApp) (path : string) : bool :=
  bool_decide (is_Some (files self !! path)).

(** [os.path.basename]: what follows the last slash. *)
Fixpoint basename_from (candidate path : string) : string :=
  match path with
  | "" => candidate
  | String c rest =>
      if Ascii.eqb c "/" then basename_from rest rest
      else basename_from candidate rest
  end.

Definition basename (path : string) : string := basename_from path path.

(** [QPixmap(image_path)]. *)
Definition load_pixmap (self : ScreenshotApp) (path : string) : QPixmap :=
  match files self !! path with
  | Some (PngImage image) => Pixels image
  | _ => NullPixmap
  end.

Definition pos (self : ScreenshotApp) : QPoint :=
  {| px := x (geometry self); py := y (geometry self) |}.

Definition move (self : ScreenshotApp) (p : QPoint) : ScreenshotApp :=
  set_geometry self
    {| x := px p; y := py p;
       width := width (geometry self); height := height (geometry self) |}.

(** *** The methods of [ScreenshotApp]

    [QApplication.processEvents()] and the timed event loops only wait; they
    change none of the attributes modelled here. *)

Definition on_language_change (self : ScreenshotApp) (lang_display_name : string)
  : ScreenshotApp :=
  match AVAILABLE_LANGUAGES !! lang_display_name with
  | Some lang_code =>
      if str_bool lang_code then
        let self := set_ocr_processor self
                      (set_language (ocr_processor self) lang_code) in
        set_settings self
          (set_language_value (settings self) (Some lang_display_name))
      else self
  | None => self
  end.

(** [self.language_combo.setCurrentText(text)]; once [currentTextChanged] is
    connected, a change of the current text calls [on_language_change]. *)
Definition language_combo_setCurrentText (connected : bool)
    (self : ScreenshotApp) (text : string) : ScreenshotApp :=
  let before := currentText (language_combo self) in
  let self := set_language_combo self (setCurrentText (language_combo self) text) in
  let now := currentText (language_combo self) in
  if connected && bool_decide (now ≠ before)
  then on_language_change self now
  else self.

Definition off_screen_pos : QPoint := {| px := -10000; py := -10000 |}.

(** The body of the [try] in [take_screenshot]. *)
Definition take_screenshot_try (d : Display) (self : ScreenshotApp)
  : ScreenshotApp * outcome unit :=
  let self := move self off_screen_pos in
  match grabWindow d (pos self) with
  | Raises e => (self, Raises e)
  | Returns pixmap =>
      let self := set_current_screenshot_path self (Some DEFAULT_SCREENSHOT_PATH) in
      match save d pixmap DEFAULT_SCREENSHOT_PATH with
      | Raises e => (self, Raises e)
      | Returns false =>
          let self := set_text_area self
                        ("Error: Failed to save screenshot to " ++ DEFAULT_SCREENSHOT_PATH) in
          (set_current_screenshot_path self None, Returns ())
      | Returns true =>
          (set_files self (<[DEFAULT_SCREENSHOT_PATH := PngImage pixmap]> (files self)),
           Returns ())
      end
  end.

Definition take_screenshot (d : Display) (self : ScreenshotApp)
  : ScreenshotApp * option string :=
  if negb (primaryScreen d) then
    (set_text_area self "Error: Could not get primary screen.", None)
  else
    let original_pos := pos self in
    let '(self, result) := take_screenshot_try d self in
    (* except Exception as e *)
    let self :=
      match result with
      | Returns _ => self
      | Raises e =>
          let self := set_text_area self ("Error taking screenshot: " ++ exn_msg e) in
          set_current_screenshot_path self None
      end in
    (* finally *)
    let self := move self original_pos in
    (self, current_screenshot_path self).

Definition display_screenshot_thumbnail (self : ScreenshotApp) (image_path : string)
  : ScreenshotApp :=
  if negb (path_exists self image_path) then
    set_screenshot_label self
      (setText (screenshot_label self) "Screenshot file not found.")
  else
    let pixmap := load_pixmap self image_path in
    if isNull pixmap then
      set_screenshot_label self
        (setText (screenshot_label self) "Failed to load screenshot.")
    else
      set_screenshot_label self (setPixmap (screenshot_label self) (scaled pixmap)).

(** [OCRWorker(...)] followed by [start()]. *)
Definition start_worker (self : ScreenshotApp) (screenshot_file : string)
  : ScreenshotApp :=
  let self := set_ocr_worker_thread self
                (Some {| image_path := screenshot_file; isRunning := true |}) in
  set_workers_started self (S (workers_started self)).

Definition worker_is_running (self : ScreenshotApp) : bool :=
  match ocr_worker_thread self with
  | Some worker => isRunning worker
  | None => false
  end.

Definition scan_screen_and_process (d : Display) (self : ScreenshotApp)
  : ScreenshotApp :=
  let self := set_scan_button self false in
  let self := set_text_area self "Taking screenshot..." in
  let '(self, screenshot_file) := take_screenshot d self in
  (* the [else] of [if screenshot_file and os.path.exists(screenshot_file)] *)
  let aborted :=
    let self := set_text_area self "Failed to take or save screenshot. OCR aborted." in
    let self := set_screenshot_label self
                  (setText (screenshot_label self) "Screenshot failed.") in
    set_scan_button self true in
  match screenshot_file with
  | Some file =>
      if str_bool file && path_exists self file then
        let self := display_screenshot_thumbnail self file in
        let self := set_text_area self
                      ("Screenshot taken: " ++ basename file ++ LF ++ "Starting OCR...") in
        if worker_is_running self then set_scan_button self true
        else
          let self := start_worker self file in
          set_settings self
            (set_last_screenshot_path_value (settings self) (Some file))
      else aborted
  | None => aborted
  end.

(** [self.text_area.setText(text_or_error)]. *)
Definition on_ocr_completed (self : ScreenshotApp) (text_or_error : string)
  : ScreenshotApp :=
  set_text_area self text_or_error.

Definition on_ocr_thread_finished (self : ScreenshotApp) : ScreenshotApp :=
  let self := set_scan_button self true in
  set_ocr_worker_thread self None.

(** [OCRWorker.run]: the text the signal [ocr_finished] carries. *)
Definition run (predict : PaddleOCR -> string -> outcome (option (list res_obj)))
    (self : ScreenshotApp) (worker : OCRWorker) : string :=
  let emitted :=
    if negb (str_bool (image_path worker))
       || negb (path_exists self (image_path worker))
    then Returns "Error: Screenshot path is invalid or file does not exist for OCR."
    else
      extracted_text ← process_image (dom (files self)) predict
                         (ocr_processor self) (image_path worker);
      match extracted_text with
      | Some text =>
          if str_bool text then Returns text
          else Returns "No text could be extracted or an error occurred during OCR. Check console for details."
      | None =>
          Returns "No text could be extracted or an error occurred during OCR. Check console for details."
      end in
  match emitted with
  | Returns text => text
  | Raises e => "Critical error in OCR thread: " ++ exn_msg e
  end.

Section startup_shutdown.
Context {codec : GeometryCodec}.

(** [load_settings], part "Load window geometry". *)
Definition load_settings_geometry (self : ScreenshotApp) : ScreenshotApp :=
  match geometry_value (settings self) with
  | Some ((_ :: _) as blob) =>
      match restoreGeometry blob with
      | Some g => set_geometry self g
      | None => self
      end
  | _ => self
  end.

(** [load_settings], part "Load language". *)
Definition load_settings_language (self : ScreenshotApp) : ScreenshotApp :=
  let lang_display_name :=
    default DEFAULT_LANGUAGE (language_value (settings self)) in
  match AVAILABLE_LANGUAGES !! lang_display_name with
  | Some lang_code =>
      let self := language_combo_setCurrentText true self lang_display_name in
      if bool_decide (lang_display_name ≠ DEFAULT_LANGUAGE)
      then set_ocr_processor self (set_language (ocr_processor self) lang_code)
      else self
  | None =>
      let self := language_combo_setCurrentText true self DEFAULT_LANGUAGE in
      set_ocr_processor self
        (set_language (ocr_processor self) DEFAULT_LANGUAGE_code)
  end.

(** The [else] of part "Load last screenshot for display (if any)". *)
Definition load_settings_no_screenshot (self : ScreenshotApp) : ScreenshotApp :=
  let self := set_screenshot_label self
                (setText (screenshot_label self) "Take a new screenshot.") in
  set_screenshot_label self (setPixmap (screenshot_label self) NullPixmap).

Definition load_settings_last_screenshot (self : ScreenshotApp) : ScreenshotApp :=
  match last_screenshot_path_value (settings self) with
  | Some last_screenshot =>
      if str_bool last_screenshot && path_exists self last_screenshot then
        let self := set_current_screenshot_path self (Some last_screenshot) in
        display_screenshot_thumbnail self last_screenshot
      else load_settings_no_screenshot self
  | None => load_settings_no_screenshot self
  end.

Definition load_settings (self : ScreenshotApp) : ScreenshotApp :=
  let self := load_settings_geometry self in
  let self := load_settings_language self in
  load_settings_last_screenshot self.

(** [init_ui], as far as it sets the widgets the program uses later.  The
    combo box is connected to [on_language_change] only after its text is
    set. *)
Definition init_ui (self : ScreenshotApp) : ScreenshotApp :=
  let self := set_text_area self "" in
  let self := set_screenshot_label self (LabelText "No screenshot taken yet.") in
  let combo := foldl addItem {| items := []; currentText := "" |}
                 (AVAILABLE_LANGUAGES_items.*1) in
  let self := set_language_combo self combo in
  let current_lang_display :=
    default DEFAULT_LANGUAGE (language_value (settings self)) in
  let self :=
    if bool_decide (is_Some (AVAILABLE_LANGUAGES !! current_lang_display))
    then language_combo_setCurrentText false self current_lang_display
    else language_combo_setCurrentText false self DEFAULT_LANGUAGE in
  set_scan_button self true.

(** The attributes [ScreenshotApp.__init__] sets before [init_ui]; the
    widgets get their values in [init_ui]. *)
Definition new_window (stored : QSettings) (disk : gmap string file) : ScreenshotApp :=
  {| geometry := {| x := 100; y := 100; width := 800; height := 600 |};
     settings := stored;
     ocr_processor := ocr_utils.__init__ DEFAULT_LANGUAGE_code;
     current_screenshot_path := None;
     ocr_worker_thread := None;
     text_area := "";
     screenshot_label := LabelText "";
     language_combo := {| items := []; currentText := "" |};
     scan_button := true;
     files := disk;
     workers_started := 0 |}.

(** [ScreenshotApp()]: a fresh instance over the settings store and the
    file system it finds. *)
Definition __init__ (stored : QSettings) (disk : gmap string file) : ScreenshotApp :=
  load_settings (init_ui (new_window stored disk)).

Definition closeEvent (self : ScreenshotApp) : ScreenshotApp :=
  let st := set_geometry_value (settings self)
              (Some (saveGeometry (geometry self))) in
  let st := set_language_value st (Some (currentText (language_combo self))) in
  let st :=
    match current_screenshot_path self with
    | Some path =>
        if str_bool path && path_exists self path
        then set_last_screenshot_path_value st (Some path)
        else set_last_screenshot_path_value st None
    | None => set_last_screenshot_path_value st None
    end in
  set_settings self st.
End startup_shutdown.

(** *** The events the window handles, by the connections made in [init_ui]
    and in [scan_screen_and_process]; and a change of a file made outside
    the program. *)
Inductive event : Type :=
| ScanClicked (d : Display)
| LanguageSelected (name : string)
| OcrFinished (text_or_error : string)
| ThreadFinished
| FileChanged (path : string) (content : option file).

Definition handle (self : ScreenshotApp) (ev : event) : ScreenshotApp :=
  match ev with
  | ScanClicked d =>
      if scan_button self then scan_screen_and_process d self else self
  | LanguageSelected name => language_combo_setCurrentText true self name
  | OcrFinished text_or_error => on_ocr_completed self text_or_error
  | ThreadFinished => on_ocr_thread_finished self
  | FileChanged path content =>
      set_files self (partial_alter (fun _ => content) path (files self))
  end.

Definition handle_all (self : ScreenshotApp) (evs : list event) : ScreenshotApp :=
  foldl handle self evs.

End main_app.

(** ** Vocabulary of the statements *)

(** A string has a character that [strip] keeps. *)
Fixpoint has_nonspace (s : string) : bool :=
  match s with
  | "" => false
  | String c s' => negb (isspace c) || has_nonspace s'
  end.

(** The strings among the items of a Python list. *)
Definition py_strings (l : list pyval) : list string :=
  omap (fun v => match v with PyStr s => Some s | _ => None end) l.

(** [sep.join] on lists: the segments with [sep] between neighbours. *)
Fixpoint sep_concat {A} (sep : list A) (segs : list (list A)) : list A :=
  match segs with
  | [] => []
  | seg :: rest =>
      match rest with
      | [] => seg
      | _ => seg ++ sep ++ sep_concat sep rest
      end
  end.

(** Cutting a list at every occurrence of [sep]. *)
Fixpoint split_at `{EqDecision A} (sep : A) (l : list A) : list (list A) :=
  match l with
  | [] => [[]]
  | a :: l' =>
      if decide (a = sep) then [] :: split_at sep l'
      else match split_at sep l' with
           | seg :: segs => (a :: seg) :: segs
           | [] => [[a]]
           end
  end.

Module ocr_spec.
Import ocr_utils.

(** The text fragments each strategy looks at in a result object. *)
Definition json_fragments (o : res_obj) : list string :=
  match rec_texts_of o with
  | Returns (Some rec_texts) => py_strings rec_texts
  | _ => []
  end.

Definition list_fragments (o : res_obj) : list string :=
  match obj_list o with
  | Some lines => omap line_info_text lines
  | None => []
  end.

(** Every fragment of the object is empty or only whitespace. *)
Definition only_blank (o : res_obj) : Prop :=
  Forall (fun s => strip s = "") (json_fragments o ++ list_fragments o).

(** The fragments that make the text of a result object: those of the
    structured field when some survive, else those of the legacy shape. *)
Definition item_fragments (o : res_obj) : list string :=
  let legacy := match obj_list o with
                | Some lines => current_res_lines_texts lines
                | None => []
                end in
  match rec_texts_of o with
  | Returns (Some rec_texts) =>
      match meaningful_texts rec_texts with
      | [] => legacy
      | texts => texts
      end
  | _ => legacy
  end.

(** A fragment that holds no line feed and is not the line the region
    separator puts between two regions. *)
Definition plain_fragment (s : string) : Prop :=
  (LF_char ∉ list_ascii_of_string s) ∧ s ≠ "---".

(** An engine answer in which every result object yields text. *)
Definition all_yield (results : list res_obj) : Prop :=
  results ≠ [] ∧ Forall (fun o => item_fragments o ≠ []) results.

(** A result object of the structured shape with the given [rec_texts],
    used in the examples. *)
Definition structured (rec_texts : list string) : res_obj :=
  {| obj_json := Attribute (PyDict {[ "res" :=
                   PyDict {[ "rec_texts" := PyList (PyStr <$> rec_texts) ]} ]});
     obj_list := None;
     obj_str := Returns "OCRResult" |}.

(** A result object of the legacy shape: a list of [[box, (text, score)]]. *)
Definition legacy (texts : list string) : res_obj :=
  {| obj_json := NoAttribute;
     obj_list := Some ((fun t => PyList [PyOther 0; PyTuple [PyStr t; PyOther 1]]) <$> texts);
     obj_str := Returns "[...]" |}.

(** An object without text whose [str] raises. *)
Definition unprintable : res_obj :=
  {| obj_json := NoAttribute;
     obj_list := None;
     obj_str := Raises (Exception "repr failed") |}.

(** Engines for the examples: one that answers with given result objects,
    one whose [predict] raises. *)
Definition engine_answering (results : list res_obj)
  : PaddleOCR -> string -> outcome (option (list res_obj)) :=
  fun _ _ => Returns (Some results).

Definition engine_raising (e : exn)
  : PaddleOCR -> string -> outcome (option (list res_obj)) :=
  fun _ _ => Raises e.

Definition sample_path : string := "shot.png".
Definition sample_fs : gset string := {[ sample_path ]}.
Definition sample_processor : OCRProcessor := ocr_utils.__init__ "en".

Definition two_regions : list res_obj := [structured ["a"]; structured ["b"]].
Definition one_region_three_lines : list res_obj := [structured ["a"; "---"; "b"]].
Definition mixed_regions : list res_obj :=
  [structured ["a"; " "; "b"]; legacy [" c "; ""]].
Definition blank_results : list res_obj :=
  [structured ["  "; ""]; legacy [" "]; structured []].

End ocr_spec.

Module app_spec.
Import ocr_utils main_app.

(** The engine object is the one built for [current_lang]. *)
Definition coherent (p : OCRProcessor) : Prop :=
  lang <$> ocr_instance p = Some (current_lang p).

(** The engine object is configured with the code the language table gives
    for the name selected in the combo box. *)
Definition engine_follows_selection (self : ScreenshotApp) : Prop :=
  ∃ code,
    AVAILABLE_LANGUAGES !! currentText (language_combo self) = Some code
    ∧ current_lang (ocr_processor self) = code
    ∧ lang <$> ocr_instance (ocr_processor self) = Some code.

(** The combo box lists the names of the language table. *)
Definition combo_lists_languages (self : ScreenshotApp) : Prop :=
  items (language_combo self) = AVAILABLE_LANGUAGES_items.*1.

(** The name the start-up selects: the stored one when the table has it,
    else the default. *)
Definition selected_at_startup (stored : QSettings) : string :=
  let name := default DEFAULT_LANGUAGE (language_value stored) in
  if bool_decide (is_Some (AVAILABLE_LANGUAGES !! name)) then name
  else DEFAULT_LANGUAGE.

(** The ways a capture fails: no primary screen; the grab raises; the save
    raises or reports failure. *)
Definition capture_fails (d : Display) : Prop :=
  primaryScreen d = false
  ∨ (∃ e, grabWindow d off_screen_pos = Raises e)
  ∨ (∃ image, grabWindow d off_screen_pos = Returns image
       ∧ (save d image DEFAULT_SCREENSHOT_PATH = Returns false
          ∨ ∃ e, save d image DEFAULT_SCREENSHOT_PATH = Raises e)).

(** Displays for the examples. *)
Definition working_display : Display :=
  {| primaryScreen := true;
     grabWindow := fun _ => Returns 7;
     save := fun _ _ => Returns true |}.

Definition no_screen : Display :=
  {| primaryScreen := false;
     grabWindow := fun _ => Returns 7;
     save := fun _ _ => Returns true |}.

Definition grab_raises : Display :=
  {| primaryScreen := true;
     grabWindow := fun _ => Raises (Exception "grab failed");
     save := fun _ _ => Returns true |}.

Definition save_fails : Display :=
  {| primaryScreen := true;
     grabWindow := fun _ => Returns 7;
     save := fun _ _ => Returns false |}.

(** A codec for the examples: a marker byte, then the four numbers of the
    rectangle, coded as one number, in binary with a byte for a digit. *)
Fixpoint digits_of (p : positive) : list Byte.byte :=
  match p with
  | xH => []
  | xO p => Byte.x00 :: digits_of p
  | xI p => Byte.x01 :: digits_of p
  end.

Fixpoint of_digits (l : list Byte.byte) : option positive :=
  match l with
  | [] => Some xH
  | b :: l =>
      match of_digits l, b with
      | Some p, Byte.x00 => Some (xO p)
      | Some p, Byte.x01 => Some (xI p)
      | _, _ => None
      end
  end.

Definition sample_codec : GeometryCodec :=
  {| saveGeometry g :=
       Byte.x01 :: digits_of (encode (x g, y g, width g, height g));
     restoreGeometry blob :=
       match blob with
       | Byte.x01 :: rest =>
           match of_digits rest ≫= decode with
           | Some (gx, gy, gw, gh) =>
               Some {| x := gx; y := gy; width := gw; height := gh |}
           | None => None
           end
       | _ => None
       end |}.

Definition stale_settings : QSettings :=
  {| geometry_value := None;
     language_value := Some "Klingon";
     last_screenshot_path_value := None |}.

Definition no_settings : QSettings :=
  {| geometry_value := None;
     language_value := None;
     last_screenshot_path_value := None |}.

(** A window started on empty settings; the same after the user picked
    Japanese; and that one after a scan on a working display. *)
Definition fresh_window : ScreenshotApp :=
  @main_app.__init__ sample_codec no_settings ∅.

Definition japanese_window : ScreenshotApp :=
  handle fresh_window (LanguageSelected "Japanese").

Definition scanning_window : ScreenshotApp :=
  handle japanese_window (ScanClicked working_display).

(** The settings [scanning_window] leaves when it is closed, and a fresh
    instance over them after the screenshot file has been deleted. *)
Definition settings_at_close : QSettings :=
  settings (@closeEvent sample_codec scanning_window).

Definition restarted_without_file : ScreenshotApp :=
  @main_app.__init__ sample_codec settings_at_close ∅.

End app_spec.

(** ** Vocabulary of the further properties *)
Module behaviour_spec.
Import ocr_utils main_app ocr_spec app_spec.

(** The calls of a sequence of [set_language] that ask for a code other
    than the current one. *)
Fixpoint language_changes (current : string) (requests : list string) : nat :=
  match requests with
  | [] => 0
  | c :: rest =>
      (if bool_decide (c ≠ current) then 1 else 0) + language_changes c rest
  end.

(** The texts of the result objects that yield fragments, in order. *)
Definition region_texts (results : list res_obj) : list string :=
  join line_sep <$> filter (fun fr => fr ≠ []) (item_fragments <$> results).

(** An object without text can be printed: [str(res_obj)] returns. *)
Definition printable_when_empty (o : res_obj) : Prop :=
  item_fragments o = [] → ∃ s, obj_str o = Returns s.

(** The structured field of the object yields no fragment. *)
Definition structured_yields_nothing (o : res_obj) : Prop :=
  match rec_texts_of o with
  | Returns (Some rec_texts) => meaningful_texts rec_texts = []
  | _ => True
  end.

(** The [finished] signals among the events. *)
Fixpoint finished_signals (evs : list event) : nat :=
  match evs with
  | [] => 0
  | ThreadFinished :: rest => S (finished_signals rest)
  | _ :: rest => finished_signals rest
  end.

(** One if the window holds a worker, else zero. *)
Definition workers_held (self : ScreenshotApp) : nat :=
  match ocr_worker_thread self with
  | Some _ => 1
  | None => 0
  end.

(** Objects for the examples: one with both shapes, one whose [json]
    property raises and which is a list. *)
Definition both_shapes : res_obj :=
  {| obj_json := obj_json (structured [" a "; ""]);
     obj_list := obj_list (legacy ["b"]);
     obj_str := Returns "both" |}.

Definition json_raises_list : res_obj :=
  {| obj_json := AttributeRaises (Exception "no json");
     obj_list := obj_list (legacy [" b "]);
     obj_str := Returns "list" |}.

Definition empty_printable : res_obj := structured [" "].

(** An engine that answers only when it is configured for a language. *)
Definition engine_for (code : string) (results : list res_obj)
  : PaddleOCR -> string -> outcome (option (list res_obj)) :=
  fun engine _ =>
    if bool_decide (lang engine = code) then Returns (Some results)
    else Raises (Exception "wrong language").

Definition save_raises : Display :=
  {| primaryScreen := true;
     grabWindow := fun _ => Returns 7;
     save := fun _ _ => Raises (Exception "disk full") |}.

(** A display that grabs another image than [working_display]. *)
Definition second_display : Display :=
  {| primaryScreen := true;
     grabWindow := fun _ => Returns 8;
     save := fun _ _ => Returns true |}.

(** A window that holds a screenshot and no worker: [scanning_window] after
    the worker has finished. *)
Definition idle_window : ScreenshotApp :=
  handle_all scanning_window [OcrFinished "Hello"; ThreadFinished].

(** Events for the examples: the user picks Japanese and scans; then the
    worker's two signals arrive. *)
Definition scan_events : list event :=
  [LanguageSelected "Japanese"; ScanClicked working_display].

Definition sample_events : list event :=
  [LanguageSelected "Japanese"; ScanClicked working_display;
   OcrFinished "Hello"; ThreadFinished].

End behaviour_spec.

(** ** The effects the methods above leave out

    The modules [ocr_utils] and [main_app] give what a call computes when
    nothing interferes with it.  The modules below follow the same source
    lines with three more things that can happen: a [print] writes to the
    console and may raise; an exception may be outside the class
    [Exception] ([SystemExit], [KeyboardInterrupt]), and then
    [except Exception] lets it through; and the constructor
    [PaddleOCR(...)] may raise. *)

(** What a [raise] carries: an instance of [Exception], or an instance of
    [BaseException] that is not one, named by its class. *)
Inductive raised : Type :=
| OfException (e : exn)
| OutsideException (class_name : string).

(** The result of a call in this finer view. *)
Inductive effect (A : Type) : Type :=
| Value (a : A)
| Throws (r : raised).
Arguments Value {A} a.
Arguments Throws {A} r.

#[global] Instance effect_ret : MRet effect := fun A a => Value a.
#[global] Instance effect_bind : MBind effect := fun A B k c =>
  match c with
  | Value a => k a
  | Throws r => Throws r
  end.

Definition of_outcome {A} (o : outcome A) : effect A :=
  match o with
  | Returns a => Value a
  | Raises e => Throws (OfException e)
  end.

(** [try: body  except Exception as e: handler e]: what is outside
    [Exception] is not caught. *)
Definition try_except_Exception {A} (body : effect A) (handler : exn -> effect A)
  : effect A :=
  match body with
  | Value a => Value a
  | Throws (OfException e) => handler e
  | Throws (OutsideException c) => Throws (OutsideException c)
  end.

(** What the program runs on: the console behind [print], the constructor
    of the engine (whether [PaddleOCR(lang=code, ...)] returns), the
    engine's [predict], and how the type of a result object prints.  The
    last two fields give the reads of a result object that are left
    outside [Exception]: the class of what reading [res_obj.json] raises,
    and of what [str(res_obj)] raises, when they raise such an exception;
    within [Exception] the reads are those of [ocr_utils.res_obj]. *)
Record runtime := {
  rt_print : string -> effect unit;
  rt_construct : string -> effect unit;
  rt_predict : ocr_utils.PaddleOCR -> string -> effect (option (list ocr_utils.res_obj));
  rt_type : ocr_utils.res_obj -> string;
  rt_json_exit : ocr_utils.res_obj -> option string;
  rt_str_exit : ocr_utils.res_obj -> option string
}.

(** [s[:200]] *)
Definition first_200 (s : string) : string := String.substring 0 200 s.

(** ** app/ocr_utils.py, with the console, the constructor and exits *)
Module ocr_utils_io.
Import ocr_utils.

Section methods.
Variable rt : runtime.

(** The processor after the call and how the call ended; the assignment to
    [ocr_instance] happens only if the constructor returns. *)
Definition _initialize_ocr_instance (self : OCRProcessor)
  : OCRProcessor * effect unit :=
  match rt_construct rt (current_lang self) with
  | Throws r => (self, Throws r)
  | Value _ =>
      let self := ocr_utils._initialize_ocr_instance self in
      (self, rt_print rt ("OCR_UTILS: PaddleOCR instance initialized for lang='"
                          ++ current_lang self ++ "'."))
  end.

(** [OCRProcessor(lang)]: no object when [__init__] raises. *)
Definition __init__ (lang : string) : effect OCRProcessor :=
  let '(self, r) :=
    _initialize_ocr_instance
      {| current_lang := lang; ocr_instance := None; instances_created := 0 |} in
  _ ← r; Value self.

Definition set_language (self : OCRProcessor) (lang : string)
  : OCRProcessor * effect unit :=
  if bool_decide (lang ≠ current_lang self) then
    let self := {| current_lang := lang;
                   ocr_instance := ocr_instance self;
                   instances_created := instances_created self |} in
    let '(self, r) := _initialize_ocr_instance self in
    match r with
    | Value _ => (self, rt_print rt ("OCR_UTILS: OCR language changed to: " ++ lang))
    | Throws x => (self, Throws x)
    end
  else (self, Value ()).

(** Where the tests on [res_obj.json] end. *)
Inductive json_shape : Type :=
| NotADict
| ResMissing
| RecTextsMissing
| RecTexts (rec_texts : list pyval).

Definition json_shape_of (o : res_obj) : outcome json_shape :=
  match obj_json o with
  | NoAttribute => Returns NotADict
  | AttributeRaises e => Raises e
  | Attribute (PyDict json_data) =>
      match json_data !! "res" with
      | Some (PyDict res_content) =>
          match res_content !! "rec_texts" with
          | Some (PyList rec_texts) => Returns (RecTexts rec_texts)
          | _ => Returns RecTextsMissing
          end
      | _ => Returns ResMissing
      end
  | Attribute _ => Returns NotADict
  end.

(** The body of the inner [try] for the object number [n] (that is
    [i+1]): the value of [item_text] when the body is left, and how it is
    left.  [item_text] is assigned before the line that reports it. *)
Definition json_try (n : nat) (o : res_obj) : option string * effect unit :=
  match rt_json_exit rt o with
  | Some c => (None, Throws (OutsideException c))
  | None =>
  match json_shape_of o with
  | Raises e => (None, Throws (OfException e))
  | Returns NotADict =>
      (None, rt_print rt ("OCR_UTILS: Result object " ++ pretty n
                          ++ " does not have .json attribute or it's not a dict."))
  | Returns ResMissing =>
      (None, rt_print rt ("OCR_UTILS: 'res' not found or not a dict in res_obj.json for item "
                          ++ pretty n))
  | Returns RecTextsMissing =>
      (None, rt_print rt ("OCR_UTILS: 'rec_texts' not found or not a list in res_obj.json['res'] for item "
                          ++ pretty n))
  | Returns (RecTexts rec_texts) =>
      match meaningful_texts rec_texts with
      | [] => (None, Value ())
      | texts =>
          (Some (join line_sep texts),
           rt_print rt ("OCR_UTILS: Extracted text from result " ++ pretty n
                        ++ " via .json['res']['rec_texts']"))
      end
  end
  end.

(** [str(res_obj)] *)
Definition str_of (o : res_obj) : effect string :=
  match rt_str_exit rt o with
  | Some c => Throws (OutsideException c)
  | None => of_outcome (obj_str o)
  end.

(** The inner [try ... except Exception as e_json]. *)
Definition json_step (n : nat) (o : res_obj) : effect (option string) :=
  let '(item_text, ended) := json_try n o in
  match ended with
  | Value _ => Value item_text
  | Throws (OfException e_json) =>
      _ ← rt_print rt ("OCR_UTILS: Error accessing .json structure for item "
                       ++ pretty n ++ ": " ++ exn_msg e_json);
      Value item_text
  | Throws (OutsideException c) => Throws (OutsideException c)
  end.

(** The fallback on the list shape. *)
Definition list_step (n : nat) (o : res_obj) (item_text : option string)
  : effect (option string) :=
  match obj_list o with
  | Some lines =>
      if negb (opt_str_bool item_text) then
        _ ← rt_print rt ("OCR_UTILS: .json parsing failed or yielded no text for item "
                         ++ pretty n ++ ". Trying to parse as list of lines.");
        match current_res_lines_texts lines with
        | [] => Value item_text
        | texts =>
            _ ← rt_print rt ("OCR_UTILS: Extracted text from result " ++ pretty n
                             ++ " by parsing as list of lines.");
            Value (Some (join line_sep texts))
        end
      else Value item_text
  | None => Value item_text
  end.

(** One turn of the loop, for the object number [n]. *)
Definition extract_item (n : nat) (o : res_obj) : effect (option string) :=
  _ ← rt_print rt ("OCR_UTILS: Processing result object " ++ pretty n
                   ++ ", type: " ++ rt_type rt o);
  item_text ← json_step n o;
  item_text ← list_step n o item_text;
  if opt_str_bool item_text then Value item_text
  else
    details ← str_of o;
    _ ← rt_print rt ("OCR_UTILS: No text extracted for result object " ++ pretty n
                     ++ ". Object details: " ++ first_200 details);
    Value None.

(** The loop; [i] is the index of the first object of [results]. *)
Fixpoint collect_texts (i : nat) (results : list res_obj)
    (all_extracted_texts : list string) : effect (list string) :=
  match results with
  | [] => Value all_extracted_texts
  | res_obj :: rest =>
      item_text ← extract_item (S i) res_obj;
      match item_text with
      | Some text => collect_texts (S i) rest (all_extracted_texts ++ [text])%list
      | None => collect_texts (S i) rest all_extracted_texts
      end
  end.

(** The body of the outer [try]. *)
Definition process_image_body (engine : PaddleOCR) (image_path : string)
  : effect (option string) :=
  prediction_results ← rt_predict rt engine image_path;
  match prediction_results with
  | None | Some [] =>
      _ ← rt_print rt "OCR (predict) returned no results (None or empty list).";
      Value None
  | Some results =>
      _ ← rt_print rt ("OCR_UTILS: Received " ++ pretty (length results)
                       ++ " result objects from predict().");
      all_extracted_texts ← collect_texts 0 results [];
      match all_extracted_texts with
      | [] =>
          _ ← rt_print rt "OCR (predict) processed the image but found no meaningful text segments using any parsing method.";
          Value None
      | texts => Value (Some (join region_sep texts))
      end
  end.

Definition process_image (fs : gset string) (self : OCRProcessor) (image_path : string)
  : effect (option string) :=
  match ocr_instance self with
  | None =>
      _ ← rt_print rt "OCR_UTILS ERROR: OCR instance is not initialized.";
      Value None
  | Some engine =>
      if negb (bool_decide (image_path ∈ fs)) then
        _ ← rt_print rt ("Error: Image path does not exist: " ++ image_path);
        Value None
      else
        try_except_Exception (process_image_body engine image_path)
          (fun e =>
             _ ← rt_print rt ("Error during OCR processing (predict method): "
                              ++ exn_msg e);
             Value None)
  end.
End methods.

End ocr_utils_io.

(** ** app/main_app.py, with the console, the constructor and exits

    A slot that raises is left at the [raise]; the attributes assigned
    before it keep their values, and the window stays as it is then.  The
    methods below give the window after the call together with the way the
    call ended. *)
Module main_app_io.
Import ocr_utils main_app.

Section methods.
Variable rt : runtime.

Definition on_language_change (self : ScreenshotApp) (lang_display_name : string)
  : ScreenshotApp * effect unit :=
  let warning :=
    rt_print rt ("Warning: Language '" ++ lang_display_name
                 ++ "' not found in available languages.") in
  match AVAILABLE_LANGUAGES !! lang_display_name with
  | Some lang_code =>
      if str_bool lang_code then
        let '(processor, ended) :=
          ocr_utils_io.set_language rt (ocr_processor self) lang_code in
        let self := set_ocr_processor self processor in
        match ended with
        | Throws r => (self, Throws r)
        | Value _ =>
            let self := set_settings self
                          (set_language_value (settings self) (Some lang_display_name)) in
            (self, rt_print rt ("Language set to: " ++ lang_display_name
                                ++ " (" ++ lang_code ++ ")"))
        end
      else (self, warning)
  | None => (self, warning)
  end.

(** [self.language_combo.setCurrentText(text)]: the exception of a slot
    called through the signal does not reach the caller. *)
Definition language_combo_setCurrentText (connected : bool)
    (self : ScreenshotApp) (text : string) : ScreenshotApp :=
  let before := currentText (language_combo self) in
  let self := set_language_combo self (setCurrentText (language_combo self) text) in
  let now := currentText (language_combo self) in
  if connected && bool_decide (now ≠ before)
  then fst (on_language_change self now)
  else self.

(** The body of the [try] in [take_screenshot]; the report of the saved
    file is inside it.  The grab and the save are those of the [Display]:
    they return or raise within [Exception]. *)
Definition take_screenshot_try (d : Display) (self : ScreenshotApp)
  : ScreenshotApp * effect unit :=
  let self := move self off_screen_pos in
  match grabWindow d (pos self) with
  | Raises e => (self, Throws (OfException e))
  | Returns pixmap =>
      let self := set_current_screenshot_path self (Some DEFAULT_SCREENSHOT_PATH) in
      match save d pixmap DEFAULT_SCREENSHOT_PATH with
      | Raises e => (self, Throws (OfException e))
      | Returns false =>
          let self := set_text_area self
                        ("Error: Failed to save screenshot to " ++ DEFAULT_SCREENSHOT_PATH) in
          (set_current_screenshot_path self None, Value ())
      | Returns true =>
          (set_files self (<[DEFAULT_SCREENSHOT_PATH := PngImage pixmap]> (files self)),
           rt_print rt ("Screenshot saved to " ++ DEFAULT_SCREENSHOT_PATH))
      end
  end.

Definition take_screenshot (d : Display) (self : ScreenshotApp)
  : ScreenshotApp * effect (option string) :=
  if negb (primaryScreen d) then
    (set_text_area self "Error: Could not get primary screen.", Value None)
  else
    let original_pos := pos self in
    let '(self, result) := take_screenshot_try d self in
    match result with
    | Value _ =>
        let self := move self original_pos in
        (self, Value (current_screenshot_path self))
    | Throws (OfException e) =>
        let self := set_text_area self ("Error taking screenshot: " ++ exn_msg e) in
        let self := set_current_screenshot_path self None in
        let self := move self original_pos in
        (self, Value (current_screenshot_path self))
    | Throws (OutsideException c) =>
        (* finally *)
        (move self original_pos, Throws (OutsideException c))
    end.

Definition scan_screen_and_process (d : Display) (self : ScreenshotApp)
  : ScreenshotApp * effect unit :=
  let self := set_scan_button self false in
  let self := set_text_area self "Taking screenshot..." in
  let '(self, taken) := take_screenshot d self in
  let aborted :=
    let self := set_text_area self "Failed to take or save screenshot. OCR aborted." in
    let self := set_screenshot_label self
                  (setText (screenshot_label self) "Screenshot failed.") in
    set_scan_button self true in
  match taken with
  | Throws r => (self, Throws r)
  | Value (Some file) =>
      if str_bool file && path_exists self file then
        let self := display_screenshot_thumbnail self file in
        let self := set_text_area self
                      ("Screenshot taken: " ++ basename file ++ LF ++ "Starting OCR...") in
        if worker_is_running self then
          match rt_print rt "OCR is already in progress." with
          | Value _ => (set_scan_button self true, Value ())
          | Throws r => (self, Throws r)
          end
        else
          let self := start_worker self file in
          (set_settings self
             (set_last_screenshot_path_value (settings self) (Some file)),
           Value ())
      else (aborted, Value ())
  | Value None => (aborted, Value ())
  end.

Definition on_ocr_thread_finished (self : ScreenshotApp)
  : ScreenshotApp * effect unit :=
  (main_app.on_ocr_thread_finished self, rt_print rt "OCR thread finished.").

(** [OCRWorker.run]: [Value text] when the signal [ocr_finished] is emitted
    with [text]; [Throws r] when [run] is left by [r] with nothing emitted. *)
Definition run (self : ScreenshotApp) (worker : OCRWorker) : effect string :=
  try_except_Exception
    (if negb (str_bool (image_path worker))
        || negb (path_exists self (image_path worker))
     then Value "Error: Screenshot path is invalid or file does not exist for OCR."
     else
       extracted_text ← ocr_utils_io.process_image rt (dom (files self))
                          (ocr_processor self) (image_path worker);
       match extracted_text with
       | Some text =>
           if str_bool text then Value text
           else Value "No text could be extracted or an error occurred during OCR. Check console for details."
       | None =>
           Value "No text could be extracted or an error occurred during OCR. Check console for details."
       end)
    (fun e => Value ("Critical error in OCR thread: " ++ exn_msg e)).

Section startup.
Context {codec : GeometryCodec}.

(** [load_settings], part "Load language": the calls of [set_language] are
    direct, so what they raise leaves [load_settings]. *)
Definition load_settings_language (self : ScreenshotApp) : effect ScreenshotApp :=
  let lang_display_name :=
    default DEFAULT_LANGUAGE (language_value (settings self)) in
  match AVAILABLE_LANGUAGES !! lang_display_name with
  | Some lang_code =>
      let self := language_combo_setCurrentText true self lang_display_name in
      if bool_decide (lang_display_name ≠ DEFAULT_LANGUAGE) then
        let '(processor, ended) :=
          ocr_utils_io.set_language rt (ocr_processor self) lang_code in
        _ ← ended; Value (set_ocr_processor self processor)
      else Value self
  | None =>
      let self := language_combo_setCurrentText true self DEFAULT_LANGUAGE in
      let '(processor, ended) :=
        ocr_utils_io.set_language rt (ocr_processor self) DEFAULT_LANGUAGE_code in
      _ ← ended; Value (set_ocr_processor self processor)
  end.

Definition load_settings (self : ScreenshotApp) : effect ScreenshotApp :=
  let self := load_settings_geometry self in
  self ← load_settings_language self;
  Value (load_settings_last_screenshot self).

(** [ScreenshotApp()]: there is a window only when [__init__] returns. *)
Definition __init__ (stored : QSettings) (disk : gmap string file)
  : effect ScreenshotApp :=
  processor ← ocr_utils_io.__init__ rt DEFAULT_LANGUAGE_code;
  load_settings (init_ui (set_ocr_processor (new_window stored disk) processor)).
End startup.

(** The window after the handler of an event has run, to its end or to a
    [raise]. *)
Definition handle (self : ScreenshotApp) (ev : event) : ScreenshotApp :=
  match ev with
  | ScanClicked d =>
      if scan_button self then fst (scan_screen_and_process d self) else self
  | LanguageSelected name => language_combo_setCurrentText true self name
  | OcrFinished text_or_error => on_ocr_completed self text_or_error
  | ThreadFinished => fst (on_ocr_thread_finished self)
  | FileChanged path content =>
      set_files self (partial_alter (fun _ => content) path (files self))
  end.

Definition handle_all (self : ScreenshotApp) (evs : list event) : ScreenshotApp :=
  foldl handle self evs.
End methods.

End main_app_io.

(** [QTextEdit.setText] guesses the format of its argument
    ([Qt.mightBeRichText]); a string taken for rich text is shown as the
    markup renders, not as it is written. *)
Class TextFormat := {
  mightBeRichText : string -> bool;
  rendered : string -> string
}.

(** What the text area shows, [text_area] being the string last given to
    [setText]. *)
Definition toPlainText `{TextFormat} (self : main_app.ScreenshotApp) : string :=
  if mightBeRichText (main_app.text_area self)
  then rendered (main_app.text_area self)
  else main_app.text_area self.

(** ** Vocabulary of the statements about consoles, constructors and exits *)
Module io_spec.
Import ocr_utils main_app ocr_spec app_spec behaviour_spec.

(** The fragments to keep: of the structured field, those that are not
    blank, as they are; when there are none, of the legacy shape, those
    that are not blank, stripped. *)
Definition kept_fragments (o : res_obj) : list string :=
  match filter (fun s => strip s ≠ "") (json_fragments o) with
  | [] => strip <$> filter (fun s => strip s ≠ "") (list_fragments o)
  | kept => kept
  end.

(** The text made of the kept fragments: a region for each object that
    keeps one, and nothing when no object does. *)
Definition kept_text (results : list res_obj) : option string :=
  match filter (fun fr => fr ≠ []) (kept_fragments <$> results) with
  | [] => None
  | regions => Some (join region_sep (join line_sep <$> regions))
  end.

(** [str(res_obj)] returns. *)
Definition printable (o : res_obj) : Prop := ∃ s, obj_str o = Returns s.

(** The call of [print] that raises [r] on some line. *)
Definition from_print (rt : runtime) (r : raised) : Prop :=
  ∃ line, rt_print rt line = Throws r.

(** The read of a result object that raises [r], outside [Exception]. *)
Definition from_read (rt : runtime) (r : raised) : Prop :=
  ∃ o c, r = OutsideException c
         ∧ (rt_json_exit rt o = Some c ∨ rt_str_exit rt o = Some c).

(** What leaves a call without being raised and caught within it: raised
    by a [print], or by a read of a result object outside [Exception]. *)
Definition escapes (rt : runtime) (r : raised) : Prop :=
  from_print rt r ∨ from_read rt r.

(** The reads of the result objects stay within [Exception]. *)
Definition reads_within_Exception (rt : runtime) : Prop :=
  ∀ o, rt_json_exit rt o = None ∧ rt_str_exit rt o = None.

(** A console that takes every line. *)
Definition console_open (rt : runtime) : Prop :=
  ∀ line, rt_print rt line = Value ().

(** Every engine of the language table can be built. *)
Definition engines_available (rt : runtime) : Prop :=
  ∀ name code, AVAILABLE_LANGUAGES !! name = Some code →
               rt_construct rt code = Value ().

(** The language code of the adapter is the one the language table gives
    for the name selected in the combo box. *)
Definition language_follows_selection (self : ScreenshotApp) : Prop :=
  ∃ code,
    AVAILABLE_LANGUAGES !! currentText (language_combo self) = Some code
    ∧ current_lang (ocr_processor self) = code.

(** The runtime with another [predict]. *)
Definition with_predict (rt : runtime)
    (predict : PaddleOCR -> string -> effect (option (list res_obj))) : runtime :=
  {| rt_print := rt_print rt;
     rt_construct := rt_construct rt;
     rt_predict := predict;
     rt_type := rt_type rt;
     rt_json_exit := rt_json_exit rt;
     rt_str_exit := rt_str_exit rt |}.

(** A [predict] that answers on engines of one language only. *)
Definition predict_for (code : string) (results : list res_obj)
  : PaddleOCR -> string -> effect (option (list res_obj)) :=
  fun engine _ =>
    if bool_decide (lang engine = code) then Value (Some results)
    else Throws (OfException (Exception "wrong language")).

(** Runtimes for the examples.  One where nothing interferes: the console
    takes every line, every engine is built and [predict] answers. *)
Definition settled (results : list res_obj) : runtime :=
  {| rt_print := fun _ => Value ();
     rt_construct := fun _ => Value ();
     rt_predict := fun _ _ => Value (Some results);
     rt_type := fun _ => "<class 'OCRResult'>";
     rt_json_exit := fun _ => None;
     rt_str_exit := fun _ => None |}.

(** One whose [predict] is interrupted from the keyboard. *)
Definition interrupted : runtime :=
  {| rt_print := fun _ => Value ();
     rt_construct := fun _ => Value ();
     rt_predict := fun _ _ => Throws (OutsideException "KeyboardInterrupt");
     rt_type := fun _ => "<class 'OCRResult'>";
     rt_json_exit := fun _ => None;
     rt_str_exit := fun _ => None |}.

(** One where the reading of [.json] is interrupted. *)
Definition interrupted_read (results : list res_obj) : runtime :=
  {| rt_print := fun _ => Value ();
     rt_construct := fun _ => Value ();
     rt_predict := fun _ _ => Value (Some results);
     rt_type := fun _ => "<class 'OCRResult'>";
     rt_json_exit := fun _ => Some "KeyboardInterrupt";
     rt_str_exit := fun _ => None |}.

(** One whose console is closed: every [print] raises a [ValueError]. *)
Definition closed_console (results : list res_obj) : runtime :=
  {| rt_print := fun _ =>
       Throws (OfException (Exception "I/O operation on closed file."));
     rt_construct := fun _ => Value ();
     rt_predict := fun _ _ => Value (Some results);
     rt_type := fun _ => "<class 'OCRResult'>";
     rt_json_exit := fun _ => None;
     rt_str_exit := fun _ => None |}.

(** One that has the models of English only: building an engine for
    another language raises. *)
Definition english_only : runtime :=
  {| rt_print := fun _ => Value ();
     rt_construct := fun code =>
       if bool_decide (code = "en") then Value ()
       else Throws (OfException (Exception "model download failed"));
     rt_predict := fun _ _ => Value (Some mixed_regions);
     rt_type := fun _ => "<class 'OCRResult'>";
     rt_json_exit := fun _ => None;
     rt_str_exit := fun _ => None |}.

(** A format guess for the examples: a string that opens a tag is rich
    text, and renders to what stands outside the tags. *)
Fixpoint outside_tags (in_tag : bool) (s : string) : string :=
  match s with
  | "" => ""
  | String c rest =>
      if Ascii.eqb c "<" then outside_tags true rest
      else if Ascii.eqb c ">" then outside_tags false rest
      else if in_tag then outside_tags in_tag rest
      else String c (outside_tags in_tag rest)
  end.

Definition tags_are_markup : TextFormat :=
  {| mightBeRichText s := match s with String "<" _ => true | _ => false end;
     rendered := outside_tags false |}.

End io_spec.

(** ** Facts about strings *)
Module string_facts.

Lemma str_bool_false s : str_bool s = false ↔ s = "".
Proof. destruct s; simpl; split; congruence. Qed.

Lemma str_bool_true s : str_bool s = true ↔ s ≠ "".
Proof. destruct s; simpl; split; congruence. Qed.

Lemma has_nonspace_app a b :
  has_nonspace (a ++ b) = has_nonspace a || has_nonspace b.
Proof.
  induction a as [|c a IH]; simpl; [done|].
  rewrite IH. by destruct (isspace c).
Qed.

Lemma has_nonspace_str_bool s : has_nonspace s = true → str_bool s = true.
Proof. by destruct s. Qed.

Lemma has_nonspace_lstrip s : has_nonspace (lstrip s) = has_nonspace s.
Proof.
  induction s as [|c s IH]; simpl; [done|].
  destruct (isspace c) eqn:Hc; simpl; [done|]. by rewrite Hc.
Qed.

Lemma rstrip_spec s :
  str_bool (rstrip s) = has_nonspace s ∧ has_nonspace (rstrip s) = has_nonspace s.
Proof.
  induction s as [|c s [IH1 IH2]]; simpl; [done|].
  destruct (rstrip s) as [|c' r] eqn:Hr; simpl in *.
  - rewrite <- IH1. destruct (isspace c) eqn:Hc; simpl; by rewrite ?Hc.
  - rewrite <- IH1. rewrite orb_true_r. split; [done|]. by rewrite IH2, <- IH1, orb_true_r.
Qed.

Lemma str_bool_strip s : str_bool (strip s) = has_nonspace s.
Proof.
  unfold strip. rewrite (proj1 (rstrip_spec _)). apply has_nonspace_lstrip.
Qed.

Lemma has_nonspace_strip s : has_nonspace (strip s) = has_nonspace s.
Proof.
  unfold strip. rewrite (proj2 (rstrip_spec _)). apply has_nonspace_lstrip.
Qed.

Lemma strip_empty_iff s : strip s = "" ↔ has_nonspace s = false.
Proof. rewrite <- str_bool_strip. symmetry. apply str_bool_false. Qed.

Lemma join_cons sep s l :
  l ≠ [] → join sep (s :: l) = s ++ sep ++ join sep l.
Proof. unfold join. by destruct l. Qed.

Lemma join_singleton sep s : join sep [s] = s.
Proof. done. Qed.

Lemma has_nonspace_join sep l :
  Exists (fun s => has_nonspace s = true) l → has_nonspace (join sep l) = true.
Proof.
  induction l as [|s l IH]; intros Hex; [by apply Exists_nil in Hex|].
  destruct l as [|s' l]; [by apply Exists_cons in Hex as [?|?%Exists_nil]|].
  rewrite join_cons by done. rewrite !has_nonspace_app.
  apply Exists_cons in Hex as [->|Hex]; [done|].
  rewrite IH by done. by rewrite !orb_true_r.
Qed.

End string_facts.

(** ** Joining and cutting *)
Module split_facts.
Import string_facts.

Section split_at.
Context `{EqDecision A} (sep : A).

Lemma split_at_no_sep (seg : list A) :
  Forall (fun a => a ≠ sep) seg → split_at sep seg = [seg].
Proof.
  induction 1 as [|a seg Ha _ IH]; simpl; [done|].
  rewrite decide_False by done. by rewrite IH.
Qed.

Lemma split_at_app_sep (seg rest : list A) :
  Forall (fun a => a ≠ sep) seg →
  split_at sep (seg ++ sep :: rest)%list = seg :: split_at sep rest.
Proof.
  induction 1 as [|a seg Ha _ IH]; simpl.
  - by rewrite decide_True.
  - rewrite decide_False by done. by rewrite IH.
Qed.

(** Cutting at the separator undoes the joining, when no segment holds
    the separator. *)
Lemma split_at_sep_concat (segs : list (list A)) :
  segs ≠ [] → Forall (Forall (fun a => a ≠ sep)) segs →
  split_at sep (sep_concat [sep] segs) = segs.
Proof.
  intros Hne Hall. induction Hall as [|seg segs Hseg Hall IH]; [done|].
  destruct segs as [|seg' segs]; simpl.
  - by apply split_at_no_sep.
  - change (seg ++ [sep] ++ ?l)%list with (seg ++ sep :: l)%list.
    rewrite split_at_app_sep by done. f_equal. by apply IH.
Qed.

Lemma sep_concat_inj (segs1 segs2 : list (list A)) :
  segs1 ≠ [] → segs2 ≠ [] →
  Forall (Forall (fun a => a ≠ sep)) segs1 →
  Forall (Forall (fun a => a ≠ sep)) segs2 →
  sep_concat [sep] segs1 = sep_concat [sep] segs2 → segs1 = segs2.
Proof.
  intros ? ? ? ? Heq.
  rewrite <- (split_at_sep_concat segs1), <- (split_at_sep_concat segs2) by done.
  by rewrite Heq.
Qed.
End split_at.

Lemma list_ascii_of_string_app a b :
  list_ascii_of_string (a ++ b)
  = (list_ascii_of_string a ++ list_ascii_of_string b)%list.
Proof. induction a as [|c a IH]; simpl; [done|]. by rewrite IH. Qed.

Lemma append_assoc (a b c : string) : (a ++ b) ++ c = a ++ b ++ c.
Proof.
  induction a as [|x a IH]; [done|].
  change (String x ((a ++ b) ++ c) = String x (a ++ b ++ c)). by rewrite IH.
Qed.

#[local] Instance list_ascii_of_string_inj : Inj (=) (=) list_ascii_of_string.
Proof.
  intros a b Heq.
  rewrite <- (string_of_list_ascii_of_string a), <- (string_of_list_ascii_of_string b).
  by rewrite Heq.
Qed.

Lemma list_ascii_of_join (parts : list string) :
  list_ascii_of_string (join LF parts)
  = sep_concat [LF_char] (list_ascii_of_string <$> parts).
Proof.
  induction parts as [|s parts IH]; [done|].
  destruct parts as [|s' parts]; [done|].
  rewrite join_cons by done. rewrite !list_ascii_of_string_app, IH. done.
Qed.

(** Joining by line feeds loses nothing when no part holds a line feed. *)
Lemma join_LF_inj (l1 l2 : list string) :
  l1 ≠ [] → l2 ≠ [] →
  Forall (fun s => LF_char ∉ list_ascii_of_string s) l1 →
  Forall (fun s => LF_char ∉ list_ascii_of_string s) l2 →
  join LF l1 = join LF l2 → l1 = l2.
Proof.
  intros Hne1 Hne2 Hall1 Hall2 Heq.
  apply (f_equal list_ascii_of_string) in Heq.
  rewrite !list_ascii_of_join in Heq.
  apply sep_concat_inj in Heq.
  - revert Heq. apply (inj (fmap list_ascii_of_string)).
  - by destruct l1.
  - by destruct l2.
  - apply Forall_fmap. eapply Forall_impl; [exact Hall1|].
    intros s Hs. simpl. apply Forall_forall. intros c Hc ->. done.
  - apply Forall_fmap. eapply Forall_impl; [exact Hall2|].
    intros s Hs. simpl. apply Forall_forall. intros c Hc ->. done.
Qed.

Lemma join_app sep (l1 l2 : list string) :
  l1 ≠ [] → l2 ≠ [] →
  join sep (l1 ++ l2)%list = join sep l1 ++ sep ++ join sep l2.
Proof.
  intros Hne1 Hne2. induction l1 as [|s l1 IH]; [done|].
  destruct l1 as [|s' l1].
  - simpl. by rewrite join_cons.
  - change ((s :: s' :: l1) ++ l2)%list with (s :: ((s' :: l1) ++ l2))%list.
    rewrite !join_cons by done. rewrite IH by done.
    by rewrite !append_assoc.
Qed.

Lemma sep_concat_nonempty {A} (sep : list A) (segs : list (list A)) :
  segs ≠ [] → Forall (fun seg => seg ≠ []) segs → sep_concat sep segs ≠ [].
Proof.
  intros Hne Hall. destruct Hall as [|seg segs Hseg Hall]; [done|].
  simpl. destruct segs; [done|]. by destruct seg.
Qed.

End split_facts.

(** ** The extraction of [process_image] *)
Module ocr_facts.
Import ocr_utils ocr_spec string_facts split_facts.

Lemma filter_none {A} (P : A → Prop) `{∀ a, Decision (P a)} (l : list A) :
  Forall (fun a => ¬ P a) l → filter P l = [].
Proof.
  induction 1 as [|a l Ha _ IH]; [done|].
  rewrite filter_cons. by rewrite decide_False.
Qed.

Lemma meaningful_texts_filter rec_texts :
  meaningful_texts rec_texts = filter (fun s => strip s ≠ "") (py_strings rec_texts).
Proof.
  unfold meaningful_texts, py_strings.
  induction rec_texts as [|v l IH]; [done|].
  destruct v; simpl; try done.
  rewrite filter_cons. destruct (str_bool (strip s)) eqn:Hb.
  - apply str_bool_true in Hb. rewrite decide_True by done. f_equal. apply IH.
  - apply str_bool_false in Hb. rewrite decide_False by (by intros ?). apply IH.
Qed.

Lemma current_res_lines_texts_filter lines :
  current_res_lines_texts lines
  = strip <$> filter (fun s => strip s ≠ "") (omap line_info_text lines).
Proof.
  unfold current_res_lines_texts.
  induction lines as [|v l IH]; [done|].
  simpl. unfold line_fragment at 1.
  destruct (line_info_text v) as [text|]; [|done].
  rewrite filter_cons. destruct (str_bool (strip text)) eqn:Hb.
  - apply str_bool_true in Hb. rewrite decide_True by done.
    rewrite fmap_cons. f_equal. apply IH.
  - apply str_bool_false in Hb. rewrite decide_False by (by intros ?). apply IH.
Qed.

Lemma meaningful_texts_nonspace rec_texts :
  Forall (fun s => has_nonspace s = true) (meaningful_texts rec_texts).
Proof.
  rewrite meaningful_texts_filter. apply Forall_forall.
  intros s [Hs _]%list_elem_of_filter.
  rewrite <- str_bool_strip. by apply str_bool_true.
Qed.

Lemma current_res_lines_texts_nonspace lines :
  Forall (fun s => has_nonspace s = true) (current_res_lines_texts lines).
Proof.
  rewrite current_res_lines_texts_filter. apply Forall_fmap, Forall_forall.
  intros s [Hs _]%list_elem_of_filter. simpl.
  rewrite has_nonspace_strip, <- str_bool_strip. by apply str_bool_true.
Qed.

Lemma item_fragments_nonspace o :
  Forall (fun s => has_nonspace s = true) (item_fragments o).
Proof.
  unfold item_fragments.
  assert (Forall (fun s => has_nonspace s = true)
            match obj_list o with
            | Some lines => current_res_lines_texts lines
            | None => []
            end) as Hlegacy.
  { destruct (obj_list o); [apply current_res_lines_texts_nonspace | constructor]. }
  destruct (rec_texts_of o) as [[rec_texts|]|]; try done.
  pose proof (meaningful_texts_nonspace rec_texts).
  by destruct (meaningful_texts rec_texts).
Qed.

(** A text joined from surviving fragments is truthy. *)
Lemma joined_fragments_truthy sep (texts : list string) :
  texts ≠ [] → Forall (fun s => has_nonspace s = true) texts →
  has_nonspace (join sep texts) = true.
Proof.
  intros Hne Hall. apply has_nonspace_join.
  destruct texts as [|t texts]; [done|].
  apply Exists_cons_hd. by apply Forall_cons in Hall as [? _].
Qed.

(** The value of [item_text] after both strategies. *)
Lemma item_text_fragments o :
  list_strategy o (item_text_from_json o)
  = match item_fragments o with
    | [] => None
    | texts => Some (join line_sep texts)
    end.
Proof.
  unfold list_strategy, item_text_from_json, json_strategy, item_fragments.
  destruct (rec_texts_of o) as [[rec_texts|]|e]; simpl.
  - pose proof (meaningful_texts_nonspace rec_texts) as Hm.
    destruct (meaningful_texts rec_texts) as [|t texts] eqn:Hmt; simpl.
    + destruct (obj_list o) as [lines|]; [|done].
      by destruct (current_res_lines_texts lines).
    + assert (str_bool (join line_sep (t :: texts)) = true) as ->.
      { apply has_nonspace_str_bool. by apply joined_fragments_truthy. }
      by destruct (obj_list o).
  - destruct (obj_list o) as [lines|]; [|done].
    by destruct (current_res_lines_texts lines).
  - destruct (obj_list o) as [lines|]; [|done].
    by destruct (current_res_lines_texts lines).
Qed.

Lemma extract_item_fragments o :
  extract_item o
  = match item_fragments o with
    | [] => _ ← obj_str o; Returns None
    | texts => Returns (Some (join line_sep texts))
    end.
Proof.
  unfold extract_item. rewrite item_text_fragments.
  pose proof (item_fragments_nonspace o) as Hn.
  destruct (item_fragments o) as [|t texts]; [done|].
  assert (opt_str_bool (Some (join line_sep (t :: texts))) = true) as ->; [|done].
  simpl. apply has_nonspace_str_bool. by apply joined_fragments_truthy.
Qed.

(** The loop, when it ends without an exception, has appended the texts of
    the objects that yield fragments, in order. *)
Lemma collect_texts_returns results acc texts :
  collect_texts results acc = Returns texts →
  texts = (acc ++ (join line_sep <$> filter (fun fr => fr ≠ []) (item_fragments <$> results)))%list.
Proof.
  revert acc. induction results as [|o results IH]; intros acc; simpl.
  - intros [= <-]. by rewrite app_nil_r.
  - rewrite extract_item_fragments. rewrite filter_cons.
    destruct (item_fragments o) as [|t fr] eqn:Hfr.
    + rewrite decide_False by (by intros ?).
      destruct (obj_str o); simpl; [apply IH|done].
    + rewrite decide_True by done. simpl. intros ->%IH.
      by rewrite <- app_assoc.
Qed.

Lemma collect_texts_all_yield results acc :
  Forall (fun o => item_fragments o ≠ []) results →
  collect_texts results acc
  = Returns (acc ++ (join line_sep <$> (item_fragments <$> results)))%list.
Proof.
  revert acc. induction results as [|o results IH]; intros acc Hall; simpl.
  - by rewrite app_nil_r.
  - apply Forall_cons in Hall as [Ho Hall]. rewrite extract_item_fragments.
    destruct (item_fragments o) as [|t fr] eqn:Hfr; [done|]. simpl.
    rewrite IH by done. by rewrite <- app_assoc.
Qed.

Lemma only_blank_no_fragments o : only_blank o → item_fragments o = [].
Proof.
  unfold only_blank, item_fragments, json_fragments, list_fragments.
  intros [Hjson Hlist]%Forall_app.
  assert (match obj_list o with
          | Some lines => current_res_lines_texts lines
          | None => []
          end = []) as ->.
  { destruct (obj_list o) as [lines|]; [|done].
    rewrite current_res_lines_texts_filter.
    rewrite filter_none; [done|].
    eapply Forall_impl; [exact Hlist|]. by intros s -> ?. }
  destruct (rec_texts_of o) as [[rec_texts|]|]; try done.
  rewrite meaningful_texts_filter.
  rewrite filter_none; [done|].
  eapply Forall_impl; [exact Hjson|]. by intros s -> ?.
Qed.

Lemma collect_texts_only_blank results acc texts :
  Forall only_blank results →
  collect_texts results acc = Returns texts → texts = acc.
Proof.
  intros Hall ->%collect_texts_returns.
  rewrite filter_none; [by rewrite app_nil_r|].
  apply Forall_fmap. eapply Forall_impl; [exact Hall|].
  intros o Ho. simpl. rewrite only_blank_no_fragments by done.
  intros Hne. by apply Hne.
Qed.

Lemma region_sep_not_line_sep : region_sep ≠ line_sep.
Proof. done. Qed.

(** The returned text is the line-feed join of all fragments, with a line
    [---] between two regions. *)
Lemma regions_as_lines (regions : list (list string)) :
  regions ≠ [] → Forall (fun r => r ≠ []) regions →
  join region_sep (join line_sep <$> regions)
  = join LF (sep_concat ["---"] regions).
Proof.
  intros Hne Hall. induction Hall as [|r regions Hr Hall IH]; [done|].
  destruct regions as [|r' regions]; [done|].
  rewrite fmap_cons, join_cons by done. rewrite IH by done.
  change (sep_concat ["---"] (r :: r' :: regions))
    with (r ++ "---" :: sep_concat ["---"] (r' :: regions))%list.
  rewrite join_app by done.
  rewrite join_cons by (apply sep_concat_nonempty; done).
  unfold region_sep, line_sep. by rewrite !append_assoc.
Qed.

Lemma regions_inj (regions1 regions2 : list (list string)) :
  regions1 ≠ [] → regions2 ≠ [] →
  Forall (fun r => r ≠ []) regions1 → Forall (fun r => r ≠ []) regions2 →
  Forall (Forall plain_fragment) regions1 →
  Forall (Forall plain_fragment) regions2 →
  join region_sep (join line_sep <$> regions1)
  = join region_sep (join line_sep <$> regions2) →
  regions1 = regions2.
Proof.
  intros Hne1 Hne2 Hall1 Hall2 Hplain1 Hplain2.
  rewrite !regions_as_lines by done. intros Heq.
  assert (∀ regions, Forall (Forall plain_fragment) regions →
            Forall (fun s => LF_char ∉ list_ascii_of_string s)
                   (sep_concat ["---"] regions)) as Hlines.
  { intros regions Hplain.
    induction Hplain as [|r regions Hr _ IH]; simpl; [constructor|].
    assert (Forall (fun s => LF_char ∉ list_ascii_of_string s) r) as Hr'.
    { eapply Forall_impl; [exact Hr|]. by intros s [? _]. }
    destruct regions; [done|].
    apply Forall_app. split; [done|]. apply Forall_cons. split; [|done].
    simpl. rewrite !not_elem_of_cons. by repeat split; [..|apply not_elem_of_nil]. }
  apply join_LF_inj in Heq;
    [|by apply sep_concat_nonempty|by apply sep_concat_nonempty|by apply Hlines..].
  apply (sep_concat_inj "---") in Heq; [done..| |].
  - eapply Forall_impl; [exact Hplain1|]. intros r Hr.
    eapply Forall_impl; [exact Hr|]. by intros s [_ ?].
  - eapply Forall_impl; [exact Hplain2|]. intros r Hr.
    eapply Forall_impl; [exact Hr|]. by intros s [_ ?].
Qed.

Section process_image_facts.
Variable fs : gset string.
Variable predict : PaddleOCR -> string -> outcome (option (list res_obj)).

(** The outer [try] turns every exception of its body into [None]. *)
Lemma process_image_cases self image_path :
  process_image fs predict self image_path = Returns None
  ∨ ∃ engine results texts,
      ocr_instance self = Some engine
      ∧ image_path ∈ fs
      ∧ predict engine image_path = Returns (Some results)
      ∧ collect_texts results [] = Returns texts
      ∧ texts ≠ []
      ∧ process_image fs predict self image_path
        = Returns (Some (join region_sep texts)).
Proof.
  unfold process_image, os_path_exists, process_image_body.
  destruct (ocr_instance self) as [engine|]; [|by left].
  case_bool_decide as Hin; simpl; [|by left].
  destruct (predict engine image_path) as [[results|]|e] eqn:Hp; simpl;
    [|by left|by left].
  destruct results as [|o results]; [by left|].
  destruct (collect_texts (o :: results) []) as [texts|e] eqn:Hc; simpl;
    [|by left].
  destruct texts as [|t texts]; [by left|].
  right. by exists engine, (o :: results), (t :: texts).
Qed.

Lemma process_image_all_yield self image_path engine results :
  ocr_instance self = Some engine →
  image_path ∈ fs →
  predict engine image_path = Returns (Some results) →
  all_yield results →
  process_image fs predict self image_path
  = Returns (Some (join region_sep (join line_sep <$> (item_fragments <$> results)))).
Proof.
  intros Hengine Hpath Hpredict [Hne Hall].
  unfold process_image, os_path_exists, process_image_body.
  rewrite Hengine, bool_decide_eq_true_2, Hpredict by done. simpl.
  destruct results as [|o results]; [done|].
  rewrite collect_texts_all_yield by done. simpl.
  done.
Qed.
(** A returned text holds a character that [strip] keeps. *)
Lemma process_image_text_nonspace self image_path text :
  process_image fs predict self image_path = Returns (Some text) →
  has_nonspace text = true.
Proof.
  intros Hret.
  destruct (process_image_cases self image_path)
    as [Hnone|(engine & results & texts & _ & _ & _ & Hc & Hne & Hsome)];
    [congruence|].
  rewrite Hsome in Hret. injection Hret as <-.
  apply collect_texts_returns in Hc. simpl in Hc. subst texts.
  apply joined_fragments_truthy; [done|].
  apply Forall_fmap, Forall_forall. intros fr [Hfr Hin]%list_elem_of_filter.
  simpl. apply joined_fragments_truthy; [done|].
  apply list_elem_of_fmap in Hin as (o & -> & _).
  apply item_fragments_nonspace.
Qed.
End process_image_facts.

End ocr_facts.

(** ** The claims about [app/ocr_utils.py] *)
Module ocr_correct.
Import ocr_utils ocr_spec string_facts split_facts ocr_facts.

Section adapter.
Variable fs : gset string.
Variable predict : PaddleOCR -> string -> outcome (option (list res_obj)).

(** Claim C10. A text that [process_image] returns holds a character that is
    not whitespace; so it is truthy, and stays so when stripped. *)
Theorem returned_text_not_blank self image_path text :
  process_image fs predict self image_path = Returns (Some text) →
  has_nonspace text = true ∧ text ≠ "" ∧ strip text ≠ "".
Proof.
  intros Hns%process_image_text_nonspace.
  split; [done|]. split.
  - apply str_bool_true. by apply has_nonspace_str_bool.
  - apply str_bool_true. by rewrite str_bool_strip.
Qed.
End adapter.

(** Claim C2, as amended.  When every result object yields text, the texts
    of the objects are joined with the region separator, which is not the
    line separator; and two such answers whose fragments hold no line feed
    and are not the line [---] give the same returned text only when they
    have the same regions with the same lines. *)
Theorem regions_joined_with_region_sep
    fs predict self image_path engine results :
  ocr_instance self = Some engine →
  image_path ∈ fs →
  predict engine image_path = Returns (Some results) →
  all_yield results →
  process_image fs predict self image_path
  = Returns (Some (join region_sep (join line_sep <$> (item_fragments <$> results))))
  ∧ region_sep ≠ line_sep
  ∧ (∀ fs' predict' self' image_path' engine' results',
       ocr_instance self' = Some engine' →
       image_path' ∈ fs' →
       predict' engine' image_path' = Returns (Some results') →
       all_yield results' →
       Forall (Forall plain_fragment) (item_fragments <$> results) →
       Forall (Forall plain_fragment) (item_fragments <$> results') →
       process_image fs' predict' self' image_path'
       = process_image fs predict self image_path →
       item_fragments <$> results' = item_fragments <$> results).
Proof.
  intros Hengine Hpath Hpredict Hyield.
  split; [by eapply process_image_all_yield|].
  split; [apply region_sep_not_line_sep|].
  intros fs' predict' self' image_path' engine' results'
    Hengine' Hpath' Hpredict' Hyield' Hplain Hplain'.
  rewrite (process_image_all_yield fs predict self image_path engine results)
    by done.
  rewrite (process_image_all_yield fs' predict' self' image_path' engine' results')
    by done.
  intros [= Heq]. destruct Hyield as [Hne Hall], Hyield' as [Hne' Hall'].
  apply regions_inj in Heq; [done|..]; try done.
  - by destruct results'.
  - by destruct results.
  - by apply Forall_fmap.
  - by apply Forall_fmap.
Qed.

(** Claim C2, as stated, fails: two regions of one line each and one region
    whose second line is [---] give the same returned text. *)
Lemma two_regions_read_as_three_lines :
  all_yield two_regions
  ∧ length two_regions = 2
  ∧ process_image sample_fs (engine_answering two_regions)
      sample_processor sample_path
    = process_image sample_fs (engine_answering one_region_three_lines)
        sample_processor sample_path
  ∧ item_fragments <$> two_regions ≠ item_fragments <$> one_region_three_lines.
Proof.
  split; [split; [done|by repeat constructor]|].
  split; [done|]. split; [by vm_compute|]. by vm_compute.
Qed.

Lemma mixed_regions_yield : all_yield mixed_regions.
Proof. split; [done|]. by repeat constructor. Defined.

Lemma regions_joined_with_region_sep_witness :
  process_image sample_fs (engine_answering mixed_regions)
    sample_processor sample_path
  = Returns (Some ("a" ++ LF ++ "b" ++ LF ++ "---" ++ LF ++ "c")).
Proof.
  exact (proj1 (regions_joined_with_region_sep sample_fs
                  (engine_answering mixed_regions) sample_processor sample_path
                  _ mixed_regions eq_refl
                  ltac:(by vm_compute) eq_refl mixed_regions_yield)).
Defined.

Lemma blank_results_only_blank : Forall only_blank blank_results.
Proof. repeat constructor. Defined.

Lemma returned_text_not_blank_witness :
  process_image sample_fs (engine_answering mixed_regions)
    sample_processor sample_path
  = Returns (Some ("a" ++ LF ++ "b" ++ LF ++ "---" ++ LF ++ "c"))
  ∧ has_nonspace ("a" ++ LF ++ "b" ++ LF ++ "---" ++ LF ++ "c") = true.
Proof.
  split; [by vm_compute|].
  apply (returned_text_not_blank sample_fs (engine_answering mixed_regions)
           sample_processor sample_path).
  by vm_compute.
Defined.

End ocr_correct.

(** ** The language table and [set_language] *)
Module app_facts.
Import ocr_utils main_app app_spec.

(** *** The language table *)

Lemma AVAILABLE_LANGUAGES_lookup name code :
  AVAILABLE_LANGUAGES !! name = Some code ↔ (name, code) ∈ AVAILABLE_LANGUAGES_items.
Proof.
  unfold AVAILABLE_LANGUAGES. symmetry. apply elem_of_list_to_map.
  apply (bool_decide_unpack _). by vm_compute.
Qed.

Lemma language_codes_truthy name code :
  AVAILABLE_LANGUAGES !! name = Some code → str_bool code = true.
Proof.
  intros Hin%AVAILABLE_LANGUAGES_lookup. unfold AVAILABLE_LANGUAGES_items in Hin.
  repeat (apply elem_of_cons in Hin as [[= -> ->]|Hin]; [done|]).
  by apply elem_of_nil in Hin.
Qed.

Lemma language_names_listed name :
  name ∈ AVAILABLE_LANGUAGES_items.*1 ↔ is_Some (AVAILABLE_LANGUAGES !! name).
Proof.
  split.
  - intros ((n & code) & -> & Hin)%list_elem_of_fmap.
    exists code. by apply AVAILABLE_LANGUAGES_lookup.
  - intros [code Hcode%AVAILABLE_LANGUAGES_lookup].
    apply list_elem_of_fmap. by exists (name, code).
Qed.

Lemma default_language_lookup :
  AVAILABLE_LANGUAGES !! DEFAULT_LANGUAGE = Some DEFAULT_LANGUAGE_code.
Proof. by vm_compute. Qed.

(** *** [set_language] *)

Lemma set_language_same self c :
  c = current_lang self → set_language self c = self.
Proof.
  intros ->. unfold set_language. by rewrite bool_decide_eq_false_2 by auto.
Qed.

Lemma set_language_other self c :
  c ≠ current_lang self →
  set_language self c
  = {| current_lang := c;
       ocr_instance :=
         Some {| lang := c;
                 use_textline_orientation := false;
                 use_doc_orientation_classify := false;
                 use_doc_unwarping := false;
                 instance_id := instances_created self |};
       instances_created := S (instances_created self) |}.
Proof.
  intros Hne. unfold set_language. by rewrite bool_decide_eq_true_2.
Qed.

Lemma current_lang_set_language self c : current_lang (set_language self c) = c.
Proof.
  destruct (decide (c = current_lang self)) as [Heq|Hne].
  - by rewrite set_language_same.
  - by rewrite set_language_other.
Qed.

Lemma set_language_coherent self c :
  coherent self → coherent (set_language self c).
Proof.
  intros Hco. destruct (decide (c = current_lang self)) as [Heq|Hne].
  - by rewrite set_language_same.
  - by rewrite set_language_other.
Qed.

Lemma init_coherent c : coherent (ocr_utils.__init__ c).
Proof. done. Qed.

End app_facts.

(** ** The capture and the scan *)
Module capture_facts.
Import ocr_utils main_app app_spec app_facts.

Lemma pos_move self p : pos (move self p) = p.
Proof. by destruct p. Qed.

(** What [take_screenshot] leaves as it was. *)
Lemma take_screenshot_frame d self :
  let self' := (take_screenshot d self).1 in
  geometry self' = geometry self
  ∧ settings self' = settings self
  ∧ ocr_processor self' = ocr_processor self
  ∧ ocr_worker_thread self' = ocr_worker_thread self
  ∧ screenshot_label self' = screenshot_label self
  ∧ language_combo self' = language_combo self
  ∧ scan_button self' = scan_button self
  ∧ workers_started self' = workers_started self.
Proof.
  destruct self as [[gx gy gw gh] ? ? ? ? ? ? ? ? ? ?].
  unfold take_screenshot, take_screenshot_try; simpl.
  destruct (primaryScreen d); simpl; [|done].
  destruct (grabWindow d _) as [image|e]; simpl; [|done].
  by destruct (save d image _) as [[]|e].
Qed.

(** The window is off screen when the [try] is left, whichever way. *)
Lemma take_screenshot_try_off_screen d self :
  pos (take_screenshot_try d self).1 = off_screen_pos.
Proof.
  unfold take_screenshot_try; simpl.
  destruct (grabWindow d _) as [image|e]; simpl; [|done].
  by destruct (save d image _) as [[]|e].
Qed.

Lemma take_screenshot_fails d self :
  capture_fails d → (take_screenshot d self).2 = None.
Proof.
  unfold take_screenshot, take_screenshot_try.
  intros [Hscreen|[[e Hgrab]|(image & Hgrab & [Hsave|[e Hsave]])]].
  - by rewrite Hscreen.
  - destruct (primaryScreen d); [|done]. by rewrite pos_move, Hgrab.
  - destruct (primaryScreen d); [|done]. by rewrite pos_move, Hgrab, Hsave.
  - destruct (primaryScreen d); [|done]. by rewrite pos_move, Hgrab, Hsave.
Qed.

(** A capture that does not fail saves the file and returns its path. *)
Lemma take_screenshot_succeeds d self :
  ¬ capture_fails d →
  ∃ image,
    grabWindow d off_screen_pos = Returns image
    ∧ (take_screenshot d self).2 = Some DEFAULT_SCREENSHOT_PATH
    ∧ files (take_screenshot d self).1
      = <[DEFAULT_SCREENSHOT_PATH := PngImage image]> (files self).
Proof.
  unfold capture_fails, take_screenshot, take_screenshot_try. intros Hok.
  destruct (primaryScreen d); [|by destruct Hok; left]. rewrite pos_move.
  destruct (grabWindow d off_screen_pos) as [image|e] eqn:Hgrab;
    [|destruct Hok; right; left; eauto].
  exists image. split; [done|].
  destruct (save d image DEFAULT_SCREENSHOT_PATH) as [[]|e] eqn:Hsave.
  - done.
  - destruct Hok. right. right. eauto.
  - destruct Hok. right. right. eauto 6.
Qed.

(** What a scan does when the capture returns no path. *)
Lemma scan_after_failed_capture d self :
  (take_screenshot d (set_text_area (set_scan_button self false)
                        "Taking screenshot...")).2 = None →
  let self' := scan_screen_and_process d self in
  text_area self' = "Failed to take or save screenshot. OCR aborted."
  ∧ screenshot_label self' = LabelText "Screenshot failed."
  ∧ scan_button self' = true
  ∧ ocr_worker_thread self' = ocr_worker_thread self
  ∧ workers_started self' = workers_started self
  ∧ settings self' = settings self
  ∧ geometry self' = geometry self.
Proof.
  intros Hnone. unfold scan_screen_and_process.
  pose proof (take_screenshot_frame d
                (set_text_area (set_scan_button self false) "Taking screenshot..."))
    as (Hg & Hs & _ & Hw & _ & _ & _ & Hn).
  destruct (take_screenshot d _) as [self1 screenshot_file].
  simpl in *. subst screenshot_file. simpl. by rewrite Hg, Hs, Hw, Hn.
Qed.

(** What a scan leaves as it was, whatever the capture gives. *)
Lemma scan_frame d self :
  let self' := scan_screen_and_process d self in
  geometry self' = geometry self
  ∧ ocr_processor self' = ocr_processor self
  ∧ language_combo self' = language_combo self.
Proof.
  unfold scan_screen_and_process.
  pose proof (take_screenshot_frame d
                (set_text_area (set_scan_button self false) "Taking screenshot..."))
    as (Hg & _ & Hp & _ & _ & Hc & _ & _).
  destruct (take_screenshot d _) as [self1 screenshot_file]. simpl in *.
  unfold display_screenshot_thumbnail, start_worker, worker_is_running.
  repeat case_match; simpl; by rewrite ?Hg, ?Hp, ?Hc.
Qed.

End capture_facts.

(** ** The selected language and the engine *)
Module language_facts.
Import ocr_utils main_app app_spec app_facts capture_facts.

Lemma on_language_change_listed self name code :
  AVAILABLE_LANGUAGES !! name = Some code →
  on_language_change self name
  = set_settings
      (set_ocr_processor self (set_language (ocr_processor self) code))
      (set_language_value (settings self) (Some name)).
Proof.
  intros Hcode. unfold on_language_change.
  by rewrite Hcode, (language_codes_truthy name code).
Qed.

Lemma follows_selection_coherent self :
  engine_follows_selection self → coherent (ocr_processor self).
Proof. intros (code & _ & Hcur & Hlang). unfold coherent. congruence. Qed.

(** Setting the text of the connected combo box keeps the engine on the
    selected language. *)
Lemma select_keeps_invariant self name :
  combo_lists_languages self → engine_follows_selection self →
  combo_lists_languages (language_combo_setCurrentText true self name)
  ∧ engine_follows_selection (language_combo_setCurrentText true self name).
Proof.
  intros Hitems Hinv.
  unfold language_combo_setCurrentText, setCurrentText.
  destruct (bool_decide (name ∈ items (language_combo self))) eqn:Hin;
    simpl; cycle 1.
  { rewrite bool_decide_eq_false_2 by (intros Hne; by apply Hne).
    by destruct self as [? ? ? ? ? ? ? [? ?] ? ? ?]. }
  apply bool_decide_eq_true_1 in Hin.
  case_bool_decide as Hne; simpl.
  - rewrite Hitems in Hin. apply language_names_listed in Hin as [code Hcode].
    rewrite (on_language_change_listed _ name code) by done.
    split; [done|]. exists code. simpl. split; [done|].
    split; [apply current_lang_set_language|].
    pose proof (set_language_coherent (ocr_processor self) code
                  (follows_selection_coherent _ Hinv)) as Hco.
    unfold coherent in Hco. by rewrite Hco, current_lang_set_language.
  - split; [done|].
    destruct Hinv as (code & Hcode & Hcur & Hlang).
    exists code. simpl. by rewrite Hne.
Qed.

Section startup.
Context {codec : GeometryCodec}.

Lemma init_ui_sets stored disk :
  let self := init_ui (new_window stored disk) in
  items (language_combo self) = AVAILABLE_LANGUAGES_items.*1
  ∧ currentText (language_combo self) = selected_at_startup stored
  ∧ ocr_processor self = ocr_utils.__init__ DEFAULT_LANGUAGE_code
  ∧ settings self = stored
  ∧ files self = disk
  ∧ geometry self = {| x := 100; y := 100; width := 800; height := 600 |}
  ∧ screenshot_label self = LabelText "No screenshot taken yet."
  ∧ current_screenshot_path self = None.
Proof.
  unfold init_ui, new_window, selected_at_startup,
    language_combo_setCurrentText, setCurrentText. simpl.
  case_bool_decide as Hvalid; simpl.
  - apply language_names_listed in Hvalid.
    by rewrite (bool_decide_eq_true_2 _ Hvalid).
  - done.
Qed.

Lemma load_settings_geometry_frame self :
  let self' := load_settings_geometry self in
  settings self' = settings self
  ∧ ocr_processor self' = ocr_processor self
  ∧ language_combo self' = language_combo self
  ∧ files self' = files self
  ∧ screenshot_label self' = screenshot_label self
  ∧ current_screenshot_path self' = current_screenshot_path self.
Proof. unfold load_settings_geometry. by repeat case_match. Qed.

Lemma load_settings_last_screenshot_frame self :
  let self' := load_settings_last_screenshot self in
  settings self' = settings self
  ∧ ocr_processor self' = ocr_processor self
  ∧ language_combo self' = language_combo self
  ∧ geometry self' = geometry self
  ∧ files self' = files self.
Proof.
  unfold load_settings_last_screenshot, load_settings_no_screenshot,
    display_screenshot_thumbnail.
  by repeat case_match.
Qed.

(** The language part of [load_settings], on a window whose combo box
    already shows the selection of the start-up and whose adapter is the
    initial one. *)
Lemma load_settings_language_selects self :
  items (language_combo self) = AVAILABLE_LANGUAGES_items.*1 →
  currentText (language_combo self) = selected_at_startup (settings self) →
  ocr_processor self = ocr_utils.__init__ DEFAULT_LANGUAGE_code →
  let self' := load_settings_language self in
  language_combo self' = language_combo self
  ∧ engine_follows_selection self'
  ∧ settings self' = settings self
  ∧ geometry self' = geometry self
  ∧ files self' = files self
  ∧ screenshot_label self' = screenshot_label self
  ∧ current_screenshot_path self' = current_screenshot_path self.
Proof.
  intros Hitems Htext Hproc. unfold selected_at_startup in Htext.
  unfold load_settings_language.
  set (name := default DEFAULT_LANGUAGE (language_value (settings self))) in *.
  assert (∀ text, text = currentText (language_combo self) →
            language_combo_setCurrentText true self text = self) as Hsame.
  { intros text ->. unfold language_combo_setCurrentText, setCurrentText.
    destruct self as [? ? ? ? ? ? ? [? ?] ? ? ?]; simpl.
    destruct (bool_decide (_ ∈ _)); simpl;
      by rewrite bool_decide_eq_false_2 by (intros Hne; by apply Hne). }
  destruct (AVAILABLE_LANGUAGES !! name) as [code|] eqn:Hcode.
  - rewrite bool_decide_eq_true_2 in Htext by eauto.
    rewrite Hsame by done.
    case_bool_decide as Hdefault; simpl.
    + repeat split; try done. exists code. simpl. rewrite Htext.
      split; [done|]. split; [apply current_lang_set_language|].
      pose proof (set_language_coherent (ocr_processor self) code) as Hco.
      rewrite Hproc in Hco. specialize (Hco (init_coherent _)).
      unfold coherent in Hco. rewrite Hproc.
      by rewrite Hco, current_lang_set_language.
    + repeat split; try done.
      exists code. rewrite Htext, Hproc. split; [done|].
      rewrite Hdefault, default_language_lookup in Hcode.
      by injection Hcode as <-.
  - rewrite bool_decide_eq_false_2 in Htext by (by intros [? ?]).
    rewrite Hsame by done. simpl. repeat split; try done.
    exists DEFAULT_LANGUAGE_code. simpl. rewrite Htext, Hproc.
    split; [apply default_language_lookup|]. by rewrite set_language_same.
Qed.

(** After the start-up the combo box shows the selection of the start-up
    and the engine follows it. *)
Lemma startup_language stored disk :
  let self := __init__ stored disk in
  combo_lists_languages self
  ∧ currentText (language_combo self) = selected_at_startup stored
  ∧ engine_follows_selection self.
Proof.
  unfold __init__, load_settings.
  pose proof (init_ui_sets stored disk) as (Hitems & Htext & Hproc & Hset & _).
  set (self0 := init_ui (new_window stored disk)) in *.
  pose proof (load_settings_geometry_frame self0) as (Hs1 & Hp1 & Hc1 & _).
  set (self1 := load_settings_geometry self0) in *.
  pose proof (load_settings_language_selects self1) as (Hc2 & Hinv & _).
  { by rewrite Hc1. }
  { by rewrite Hc1, Hs1, Hset. }
  { by rewrite Hp1. }
  set (self2 := load_settings_language self1) in *.
  pose proof (load_settings_last_screenshot_frame self2) as (_ & Hp3 & Hc3 & _).
  unfold combo_lists_languages, engine_follows_selection.
  rewrite Hp3, Hc3, Hc2, Hc1. split; [done|]. split; [done|].
  unfold engine_follows_selection in Hinv. by rewrite Hc2, Hc1 in Hinv.
Qed.
End startup.

(** Every handler keeps the engine on the selected language. *)
Lemma handle_keeps_invariant self ev :
  combo_lists_languages self → engine_follows_selection self →
  combo_lists_languages (handle self ev)
  ∧ engine_follows_selection (handle self ev).
Proof.
  intros Hitems Hinv. destruct ev as [d|name|text| |path content]; simpl.
  - destruct (scan_button self); [|done].
    pose proof (scan_frame d self) as (_ & Hp & Hc).
    unfold combo_lists_languages, engine_follows_selection.
    by rewrite Hp, Hc.
  - by apply select_keeps_invariant.
  - done.
  - done.
  - done.
Qed.

Lemma handle_all_keeps_invariant self evs :
  combo_lists_languages self → engine_follows_selection self →
  combo_lists_languages (handle_all self evs)
  ∧ engine_follows_selection (handle_all self evs).
Proof.
  revert self. induction evs as [|ev evs IH]; intros self Hitems Hinv; [done|].
  destruct (handle_keeps_invariant self ev Hitems Hinv) as [? ?].
  by apply IH.
Qed.

End language_facts.

(** ** The claims about [app/main_app.py] *)
Module app_correct.
Import ocr_utils main_app ocr_spec app_spec.
Import string_facts ocr_facts app_facts capture_facts language_facts.

(** Claim C4. [set_language] does nothing when the code is the current one;
    otherwise the adapter holds the new code and a newly built engine
    object configured with it.  So after [on_language_change] with a name of
    the language table the adapter's language code is the code of the
    table. *)
Theorem set_language_recreates_engine (self : OCRProcessor) (c : string) :
  (c = current_lang self → set_language self c = self)
  ∧ (c ≠ current_lang self →
     set_language self c
     = {| current_lang := c;
          ocr_instance :=
            Some {| lang := c;
                    use_textline_orientation := false;
                    use_doc_orientation_classify := false;
                    use_doc_unwarping := false;
                    instance_id := instances_created self |};
          instances_created := S (instances_created self) |})
  ∧ (∀ (window : ScreenshotApp) L code,
       ocr_processor window = self →
       AVAILABLE_LANGUAGES !! L = Some code →
       current_lang (ocr_processor (on_language_change window L)) = code
       ∧ (coherent self →
          lang <$> ocr_instance (ocr_processor (on_language_change window L))
          = Some code)).
Proof.
  split; [apply set_language_same|].
  split; [apply set_language_other|].
  intros window L code <- Hcode.
  rewrite (on_language_change_listed _ L code) by done. simpl.
  split; [apply current_lang_set_language|].
  intros Hco%(set_language_coherent _ code).
  unfold coherent in Hco. by rewrite Hco, current_lang_set_language.
Qed.

Lemma set_language_recreates_engine_witness :
  set_language (ocr_utils.__init__ "en") "en" = ocr_utils.__init__ "en"
  ∧ set_language (ocr_utils.__init__ "en") "japan"
    = {| current_lang := "japan";
         ocr_instance :=
           Some {| lang := "japan";
                   use_textline_orientation := false;
                   use_doc_orientation_classify := false;
                   use_doc_unwarping := false;
                   instance_id := 1 |};
         instances_created := 2 |}
  ∧ current_lang (ocr_processor (on_language_change fresh_window "Japanese"))
    = "japan".
Proof.
  split; [|split].
  - by apply (proj1 (set_language_recreates_engine (ocr_utils.__init__ "en") "en")).
  - by apply (proj1 (proj2 (set_language_recreates_engine
                              (ocr_utils.__init__ "en") "japan"))).
  - apply (proj2 (proj2 (set_language_recreates_engine
                           (ocr_processor fresh_window) "en"))
             fresh_window "Japanese" "japan"); by vm_compute.
Defined.


(** Claim C6. When the capture fails, the scan shows the failure text,
    enables the scan button, and starts no worker: the worker attribute,
    the count of started workers and the settings are as before. *)
Theorem failed_capture_aborts_scan (d : Display) (self : ScreenshotApp) :
  capture_fails d →
  text_area (scan_screen_and_process d self)
  = "Failed to take or save screenshot. OCR aborted."
  ∧ scan_button (scan_screen_and_process d self) = true
  ∧ ocr_worker_thread (scan_screen_and_process d self) = ocr_worker_thread self
  ∧ workers_started (scan_screen_and_process d self) = workers_started self
  ∧ settings (scan_screen_and_process d self) = settings self.
Proof.
  intros Hfails.
  pose proof (scan_after_failed_capture d self (take_screenshot_fails d _ Hfails))
    as (? & ? & ? & ? & ? & ? & ?).
  done.
Qed.

Lemma grab_raises_fails : capture_fails grab_raises.
Proof. right. left. by eexists. Defined.

Lemma failed_capture_aborts_scan_witness :
  text_area (scan_screen_and_process grab_raises fresh_window)
  = "Failed to take or save screenshot. OCR aborted."
  ∧ scan_button (scan_screen_and_process grab_raises fresh_window) = true
  ∧ ocr_worker_thread (scan_screen_and_process grab_raises fresh_window)
    = ocr_worker_thread fresh_window
  ∧ workers_started (scan_screen_and_process grab_raises fresh_window)
    = workers_started fresh_window
  ∧ settings (scan_screen_and_process grab_raises fresh_window)
    = settings fresh_window.
Proof.
  exact (failed_capture_aborts_scan grab_raises fresh_window grab_raises_fails).
Defined.

(** Claim C7. The window is off screen when the [try] of [take_screenshot]
    is left, by a return or by an exception of the grab or of the save; and
    when [take_screenshot] returns, the window is where it was. *)
Theorem capture_restores_window (d : Display) (self : ScreenshotApp) :
  pos (take_screenshot_try d self).1 = off_screen_pos
  ∧ pos (take_screenshot d self).1 = pos self
  ∧ geometry (take_screenshot d self).1 = geometry self.
Proof.
  split; [apply take_screenshot_try_off_screen|].
  pose proof (take_screenshot_frame d self) as (Hg & _).
  simpl in Hg. unfold pos. by rewrite Hg.
Qed.

Lemma of_digits_of p : of_digits (digits_of p) = Some p.
Proof. induction p as [p IH|p IH|]; simpl; by rewrite ?IH. Qed.

Lemma sample_codec_laws : GeometryCodecLaws sample_codec.
Proof.
  split.
  - intros [gx gy gw gh]. unfold restoreGeometry, saveGeometry, sample_codec.
    rewrite of_digits_of. simpl. by rewrite decode_encode.
  - done.
Qed.

Section round_trip.
Context {codec : GeometryCodec}.

Lemma load_settings_geometry_restores `{!GeometryCodecLaws codec} self g :
  geometry_value (settings self) = Some (saveGeometry g) →
  geometry (load_settings_geometry self) = g.
Proof.
  intros Hblob. unfold load_settings_geometry. rewrite Hblob.
  pose proof (save_nonempty g) as Hne. pose proof (restore_save g) as Hrs.
  destruct (saveGeometry g) as [|b blob]; [done|]. simpl. by rewrite Hrs.
Qed.

(** The label after the screenshot part of [load_settings]. *)
Lemma load_settings_last_screenshot_label self :
  screenshot_label (load_settings_last_screenshot self)
  = match last_screenshot_path_value (settings self) with
    | Some path =>
        if str_bool path then
          match files self !! path with
          | Some (PngImage image) => LabelPixmap (ScaledPixels image)
          | Some OtherData => LabelText "Failed to load screenshot."
          | None => LabelPixmap NullPixmap
          end
        else LabelPixmap NullPixmap
    | None => LabelPixmap NullPixmap
    end.
Proof.
  unfold load_settings_last_screenshot, load_settings_no_screenshot,
    display_screenshot_thumbnail, path_exists, load_pixmap.
  destruct (last_screenshot_path_value (settings self)) as [path|]; [|done].
  destruct (str_bool path); [|done]. simpl.
  destruct (files self !! path) as [[image|]|] eqn:Hfile; simpl.
  - by rewrite ?Hfile.
  - by rewrite ?Hfile.
  - done.
Qed.

(** The label of a fresh instance. *)
Lemma startup_label stored disk :
  screenshot_label (__init__ stored disk)
  = match last_screenshot_path_value stored with
    | Some path =>
        if str_bool path then
          match disk !! path with
          | Some (PngImage image) => LabelPixmap (ScaledPixels image)
          | Some OtherData => LabelText "Failed to load screenshot."
          | None => LabelPixmap NullPixmap
          end
        else LabelPixmap NullPixmap
    | None => LabelPixmap NullPixmap
    end.
Proof.
  unfold __init__, load_settings.
  pose proof (init_ui_sets stored disk) as (Hitems & Htext & Hproc & Hset & Hfiles & _).
  set (self0 := init_ui (new_window stored disk)) in *.
  pose proof (load_settings_geometry_frame self0) as (Hs1 & Hp1 & Hc1 & Hf1 & _).
  set (self1 := load_settings_geometry self0) in *.
  pose proof (load_settings_language_selects self1) as (_ & _ & Hs2 & _ & Hf2 & _).
  { by rewrite Hc1. }
  { by rewrite Hc1, Hs1, Hset. }
  { by rewrite Hp1. }
  rewrite load_settings_last_screenshot_label.
  by rewrite Hs2, Hs1, Hset, Hf2, Hf1, Hfiles.
Qed.

Lemma startup_geometry `{!GeometryCodecLaws codec} stored disk g :
  geometry_value stored = Some (saveGeometry g) →
  geometry (__init__ stored disk) = g.
Proof.
  intros Hblob. unfold __init__, load_settings.
  pose proof (init_ui_sets stored disk) as (Hitems & Htext & Hproc & Hset & _).
  set (self0 := init_ui (new_window stored disk)) in *.
  pose proof (load_settings_geometry_frame self0) as (Hs1 & Hp1 & Hc1 & _).
  pose proof (load_settings_geometry_restores self0 g) as Hg1.
  rewrite Hset in Hg1. specialize (Hg1 Hblob).
  set (self1 := load_settings_geometry self0) in *.
  pose proof (load_settings_language_selects self1) as (_ & _ & _ & Hg2 & _).
  { by rewrite Hc1. }
  { by rewrite Hc1, Hs1, Hset. }
  { by rewrite Hp1. }
  pose proof (load_settings_last_screenshot_frame (load_settings_language self1))
    as (_ & _ & _ & Hg3 & _).
  by rewrite Hg3, Hg2.
Qed.

(** Extra X1.  Settings saved at shutdown and loaded by a fresh instance give back
    the geometry of the window and the selected language, with the engine
    on that language; and the thumbnail of the screenshot, when the window
    had one whose file is still an image at the restart. *)
Theorem settings_round_trip `{!GeometryCodecLaws codec}
    (self : ScreenshotApp) (disk : gmap string file) :
  is_Some (AVAILABLE_LANGUAGES !! currentText (language_combo self)) →
  geometry (__init__ (settings (closeEvent self)) disk) = geometry self
  ∧ currentText (language_combo (__init__ (settings (closeEvent self)) disk))
    = currentText (language_combo self)
  ∧ engine_follows_selection (__init__ (settings (closeEvent self)) disk)
  ∧ (∀ path image,
       current_screenshot_path self = Some path →
       path ≠ "" →
       is_Some (files self !! path) →
       disk !! path = Some (PngImage image) →
       screenshot_label (__init__ (settings (closeEvent self)) disk)
       = LabelPixmap (ScaledPixels image)).
Proof.
  intros Hvalid.
  set (stored := settings (closeEvent self)).
  assert (geometry_value stored = Some (saveGeometry (geometry self))) as Hgeo.
  { unfold stored, closeEvent. by repeat case_match. }
  assert (language_value stored = Some (currentText (language_combo self))) as Hlang.
  { unfold stored, closeEvent. by repeat case_match. }
  split; [by apply startup_geometry|].
  pose proof (startup_language stored disk) as (_ & Htext & Hinv).
  unfold selected_at_startup in Htext. rewrite Hlang in Htext. simpl in Htext.
  rewrite bool_decide_eq_true_2 in Htext by done.
  split; [done|]. split; [done|].
  intros path image Hpath Hne Hexists Himage.
  assert (last_screenshot_path_value stored = Some path) as Hlast.
  { unfold stored, closeEvent, path_exists. rewrite Hpath.
    apply str_bool_true in Hne. rewrite Hne.
    by rewrite bool_decide_eq_true_2. }
  rewrite startup_label, Hlast, Himage.
  apply str_bool_true in Hne. by rewrite Hne.
Qed.
End round_trip.

Lemma scanning_window_language :
  is_Some (AVAILABLE_LANGUAGES !! currentText (language_combo scanning_window)).
Proof. exists "japan". by vm_compute. Defined.

Lemma settings_round_trip_witness :
  geometry (@__init__ sample_codec settings_at_close (files scanning_window))
  = geometry scanning_window
  ∧ currentText
      (language_combo (@__init__ sample_codec settings_at_close (files scanning_window)))
    = currentText (language_combo scanning_window)
  ∧ engine_follows_selection
      (@__init__ sample_codec settings_at_close (files scanning_window))
  ∧ (∀ path image,
       current_screenshot_path scanning_window = Some path →
       path ≠ "" →
       is_Some (files scanning_window !! path) →
       files scanning_window !! path = Some (PngImage image) →
       screenshot_label
         (@__init__ sample_codec settings_at_close (files scanning_window))
       = LabelPixmap (ScaledPixels image)).
Proof.
  exact (@settings_round_trip sample_codec sample_codec_laws scanning_window
           (files scanning_window) scanning_window_language).
Defined.

(** Claim C9, on the code.  The window [scanning_window] is closed with a
    screenshot on disk, the file is deleted, and a fresh instance loads the
    settings: geometry and language come back, and the label ends as an
    empty pixmap that shows no text, because the placeholder text set by
    [load_settings] is cleared by the [setPixmap] that follows it. *)
Theorem restart_without_file_shows_no_placeholder :
  last_screenshot_path_value settings_at_close = Some DEFAULT_SCREENSHOT_PATH
  ∧ geometry restarted_without_file = geometry scanning_window
  ∧ currentText (language_combo restarted_without_file)
    = currentText (language_combo scanning_window)
  ∧ screenshot_label restarted_without_file = LabelPixmap NullPixmap
  ∧ label_text (screenshot_label restarted_without_file) = "".
Proof. by vm_compute. Qed.


Lemma working_display_captures : ¬ capture_fails working_display.
Proof.
  intros [Hscreen|[[e Hgrab]|(image & _ & [Hsave|[e Hsave]])]]; discriminate.
Defined.


End app_correct.

(** ** Further properties of [app/ocr_utils.py] *)
Module adapter_behaviour.
Import ocr_utils ocr_spec app_spec behaviour_spec.
Import string_facts ocr_facts app_facts.

(** *** Sequences of [set_language] *)

Lemma default_last_cons {A} (d c : A) (rest : list A) :
  default d (last (c :: rest)) = default c (last rest).
Proof. rewrite last_cons. by destruct (last rest). Qed.

Lemma set_language_sequence_from (p : OCRProcessor) (n : nat) requests :
  instances_created p = S n →
  ocr_instance p
  = Some {| lang := current_lang p;
            use_textline_orientation := false;
            use_doc_orientation_classify := false;
            use_doc_unwarping := false;
            instance_id := n |} →
  current_lang (foldl set_language p requests)
  = default (current_lang p) (last requests)
  ∧ instances_created (foldl set_language p requests)
    = S (n + language_changes (current_lang p) requests)
  ∧ ocr_instance (foldl set_language p requests)
    = Some {| lang := default (current_lang p) (last requests);
              use_textline_orientation := false;
              use_doc_orientation_classify := false;
              use_doc_unwarping := false;
              instance_id := n + language_changes (current_lang p) requests |}.
Proof.
  revert p n. induction requests as [|c rest IH]; intros p n Hcount Hengine.
  - simpl. by rewrite Nat.add_0_r.
  - rewrite default_last_cons. simpl.
    destruct (decide (c = current_lang p)) as [->|Hne].
    + rewrite set_language_same by done.
      rewrite (bool_decide_eq_false_2 (_ ≠ _)) by (intros Hne; by apply Hne).
      by apply IH.
    + rewrite (bool_decide_eq_true_2 (_ ≠ _)) by done.
      rewrite set_language_other by done.
      edestruct (IH {| current_lang := c;
                       ocr_instance :=
                         Some {| lang := c;
                                 use_textline_orientation := false;
                                 use_doc_orientation_classify := false;
                                 use_doc_unwarping := false;
                                 instance_id := instances_created p |};
                       instances_created := S (instances_created p) |}
                    (S n)) as (Hcur & Hcreated & Hinst).
      { simpl. by rewrite Hcount. }
      { simpl. by rewrite Hcount. }
      simpl in *. rewrite Hcur, Hcreated, Hinst.
      by rewrite <- !Nat.add_succ_comm.
Qed.

(** Extra X4.  After [OCRProcessor(l0)] and any calls of [set_language],
    the current language is the last one asked for; the adapter holds an
    engine object built for it with every toggle off; and one engine was
    built at the start and one for every call that asked for a code other
    than the current one, none for a repeated code. *)
Theorem set_language_sequence (l0 : string) (requests : list string) :
  current_lang (foldl set_language (ocr_utils.__init__ l0) requests)
  = default l0 (last requests)
  ∧ instances_created (foldl set_language (ocr_utils.__init__ l0) requests)
    = S (language_changes l0 requests)
  ∧ ocr_instance (foldl set_language (ocr_utils.__init__ l0) requests)
    = Some {| lang := default l0 (last requests);
              use_textline_orientation := false;
              use_doc_orientation_classify := false;
              use_doc_unwarping := false;
              instance_id := language_changes l0 requests |}.
Proof. by apply (set_language_sequence_from (ocr_utils.__init__ l0) 0). Qed.

(** *** The loop of [process_image] *)

Lemma region_texts_cons o results :
  region_texts (o :: results)
  = match item_fragments o with
    | [] => region_texts results
    | fr => join line_sep fr :: region_texts results
    end.
Proof.
  unfold region_texts. rewrite fmap_cons, filter_cons.
  destruct (item_fragments o); [by rewrite decide_False by (by intros ?)|].
  by rewrite decide_True.
Qed.

Lemma collect_texts_printable results acc :
  Forall printable_when_empty results →
  collect_texts results acc = Returns (acc ++ region_texts results)%list.
Proof.
  revert acc. induction results as [|o results IH]; intros acc Hall.
  - simpl. by rewrite app_nil_r.
  - apply Forall_cons in Hall as [Ho Hall]. simpl.
    rewrite extract_item_fragments, region_texts_cons.
    unfold printable_when_empty in Ho.
    destruct (item_fragments o) as [|t fr].
    + destruct Ho as [s ->]; [done|]. simpl. by apply IH.
    + simpl. rewrite IH by done. by rewrite <- app_assoc.
Qed.

Lemma collect_texts_unprintable results acc o e :
  o ∈ results → item_fragments o = [] → obj_str o = Raises e →
  ∃ e', collect_texts results acc = Raises e'.
Proof.
  revert acc. induction results as [|o' results IH]; intros acc Hin Hnone Hstr.
  - by apply elem_of_nil in Hin.
  - simpl. apply elem_of_cons in Hin as [<-|Hin].
    + rewrite extract_item_fragments, Hnone, Hstr. simpl. eauto.
    + destruct (extract_item o') as [[text|]|e'']; simpl; eauto.
Qed.



(** Extra X6.  When one object of the answer yields no text and its [str]
    raises, the diagnostic print leaves the loop: [process_image] returns
    [None], whatever text the other objects hold. *)
Theorem unprintable_object_discards_all_text
    fs predict self image_path results o e :
  (∀ engine, ocr_instance self = Some engine →
             predict engine image_path = Returns (Some results)) →
  o ∈ results →
  item_fragments o = [] →
  obj_str o = Raises e →
  process_image fs predict self image_path = Returns None.
Proof.
  intros Hpredict Hin Hnone Hstr.
  destruct (process_image_cases fs predict self image_path)
    as [?|(engine & results' & texts & Hengine & _ & Hp & Hc & _)]; [done|].
  rewrite (Hpredict engine Hengine) in Hp. injection Hp as <-.
  destruct (collect_texts_unprintable results [] o e Hin Hnone Hstr) as [e' He'].
  congruence.
Qed.

Lemma unprintable_object_discards_all_text_witness :
  extract_item (structured ["a"]) = Returns (Some "a")
  ∧ process_image sample_fs (engine_answering [structured ["a"]; unprintable])
      sample_processor sample_path
    = Returns None.
Proof.
  split; [reflexivity|].
  apply (unprintable_object_discards_all_text sample_fs
           (engine_answering [structured ["a"]; unprintable])
           sample_processor sample_path [structured ["a"]; unprintable]
           unprintable (Exception "repr failed")).
  - intros engine _. reflexivity.
  - apply elem_of_cons. right. apply elem_of_cons. by left.
  - reflexivity.
  - reflexivity.
Defined.

(** Extra X7.  The structured field comes first: when it yields fragments,
    the text of the object is those strings as they are, not stripped, and
    the legacy shape is not read.  The legacy shape is the fallback when the
    structured field yields nothing, also when reading [json] raises; its
    fragments are stripped. *)
Theorem structured_first_then_legacy (o : res_obj) :
  (∀ rec_texts,
     rec_texts_of o = Returns (Some rec_texts) →
     filter (fun s => strip s ≠ "") (py_strings rec_texts) ≠ [] →
     extract_item o
     = Returns (Some (join line_sep
                        (filter (fun s => strip s ≠ "") (py_strings rec_texts)))))
  ∧ (∀ lines,
       structured_yields_nothing o →
       obj_list o = Some lines →
       filter (fun s => strip s ≠ "") (omap line_info_text lines) ≠ [] →
       extract_item o
       = Returns (Some (join line_sep
                          (strip <$> filter (fun s => strip s ≠ "")
                                       (omap line_info_text lines))))).
Proof.
  split.
  - intros rec_texts Hrec Hsome. rewrite extract_item_fragments.
    unfold item_fragments. rewrite Hrec, meaningful_texts_filter.
    by destruct (filter _ _).
  - intros lines Hnothing Hlist Hsome. rewrite extract_item_fragments.
    unfold item_fragments, structured_yields_nothing in *. rewrite Hlist.
    rewrite current_res_lines_texts_filter.
    assert (strip <$> filter (fun s => strip s ≠ "") (omap line_info_text lines) ≠ [])
      as Hmapped.
    { by destruct (filter _ _). }
    destruct (rec_texts_of o) as [[rec_texts|]|e].
    + rewrite Hnothing. by destruct (strip <$> _).
    + by destruct (strip <$> _).
    + by destruct (strip <$> _).
Qed.

Lemma structured_first_then_legacy_witness :
  extract_item both_shapes = Returns (Some " a ")
  ∧ extract_item json_raises_list = Returns (Some "b").
Proof.
  split.
  - apply (proj1 (structured_first_then_legacy both_shapes)
             [PyStr " a "; PyStr ""]); [reflexivity|by vm_compute].
  - apply (proj2 (structured_first_then_legacy json_raises_list)
             [PyList [PyOther 0; PyTuple [PyStr " b "; PyOther 1]]]);
      [exact I|reflexivity|by vm_compute].
Defined.

End adapter_behaviour.

(** ** Further properties of [app/main_app.py] *)
Module window_behaviour.
Import ocr_utils main_app ocr_spec app_spec behaviour_spec.
Import string_facts ocr_facts app_facts capture_facts language_facts.

(** *** [on_language_change] *)

(** Extra X8.  [on_language_change] with a name that is not in the language
    table changes nothing.  With a name of the table it stores the name
    under [language], touches only the adapter and that setting, and a
    second call with the same name changes nothing more. *)
Theorem on_language_change_unknown_or_stored
    (self : ScreenshotApp) (name : string) :
  (AVAILABLE_LANGUAGES !! name = None → on_language_change self name = self)
  ∧ (is_Some (AVAILABLE_LANGUAGES !! name) →
     language_value (settings (on_language_change self name)) = Some name
     ∧ geometry_value (settings (on_language_change self name))
       = geometry_value (settings self)
     ∧ last_screenshot_path_value (settings (on_language_change self name))
       = last_screenshot_path_value (settings self)
     ∧ language_combo (on_language_change self name) = language_combo self
     ∧ geometry (on_language_change self name) = geometry self
     ∧ text_area (on_language_change self name) = text_area self
     ∧ screenshot_label (on_language_change self name) = screenshot_label self
     ∧ scan_button (on_language_change self name) = scan_button self
     ∧ ocr_worker_thread (on_language_change self name) = ocr_worker_thread self
     ∧ current_screenshot_path (on_language_change self name)
       = current_screenshot_path self
     ∧ files (on_language_change self name) = files self
     ∧ on_language_change (on_language_change self name) name
       = on_language_change self name).
Proof.
  split.
  - intros Hnone. unfold on_language_change. by rewrite Hnone.
  - intros [code Hcode].
    rewrite !(on_language_change_listed _ name code) by done. simpl.
    repeat split.
    rewrite (set_language_same (set_language _ code) code)
      by (by rewrite current_lang_set_language).
    done.
Qed.

Lemma on_language_change_unknown_or_stored_witness :
  on_language_change fresh_window "Klingon" = fresh_window
  ∧ language_value (settings (on_language_change fresh_window "Korean"))
    = Some "Korean".
Proof.
  split.
  - apply (proj1 (on_language_change_unknown_or_stored fresh_window "Klingon")).
    by vm_compute.
  - apply (proj2 (on_language_change_unknown_or_stored fresh_window "Korean")).
    exists "korean". by vm_compute.
Defined.

(** *** At most one worker *)

Lemma select_worker_frame connected self text :
  ocr_worker_thread (language_combo_setCurrentText connected self text)
  = ocr_worker_thread self
  ∧ workers_started (language_combo_setCurrentText connected self text)
    = workers_started self
  ∧ scan_button (language_combo_setCurrentText connected self text)
    = scan_button self
  ∧ files (language_combo_setCurrentText connected self text) = files self
  ∧ geometry (language_combo_setCurrentText connected self text) = geometry self.
Proof.
  unfold language_combo_setCurrentText, on_language_change.
  by repeat case_match.
Qed.

Lemma display_thumbnail_frame self path :
  ocr_worker_thread (display_screenshot_thumbnail self path) = ocr_worker_thread self
  ∧ workers_started (display_screenshot_thumbnail self path) = workers_started self
  ∧ scan_button (display_screenshot_thumbnail self path) = scan_button self
  ∧ files (display_screenshot_thumbnail self path) = files self
  ∧ settings (display_screenshot_thumbnail self path) = settings self
  ∧ current_screenshot_path (display_screenshot_thumbnail self path)
    = current_screenshot_path self.
Proof. unfold display_screenshot_thumbnail. by repeat case_match. Qed.

(** A scan either starts no worker and leaves the button enabled, or finds
    no worker running, starts one and leaves the button disabled. *)
Lemma scan_worker_cases d self :
  (workers_started (scan_screen_and_process d self) = workers_started self
   ∧ ocr_worker_thread (scan_screen_and_process d self) = ocr_worker_thread self
   ∧ scan_button (scan_screen_and_process d self) = true)
  ∨ (worker_is_running self = false
     ∧ workers_started (scan_screen_and_process d self) = S (workers_started self)
     ∧ (∃ worker, ocr_worker_thread (scan_screen_and_process d self) = Some worker)
     ∧ scan_button (scan_screen_and_process d self) = false).
Proof.
  unfold scan_screen_and_process.
  pose proof (take_screenshot_frame d
                (set_text_area (set_scan_button self false) "Taking screenshot..."))
    as (_ & _ & _ & Hw & _ & _ & Hb & Hn).
  destruct (take_screenshot d _) as [self1 screenshot_file]. simpl in *.
  destruct screenshot_file as [file|]; [|by left].
  destruct (str_bool file && path_exists self1 file); [|by left].
  destruct (display_thumbnail_frame self1 file) as (Hw2 & Hn2 & Hb2 & _).
  set (self2 := display_screenshot_thumbnail self1 file) in *.
  unfold start_worker, worker_is_running. simpl. rewrite Hw2, Hw.
  destruct (ocr_worker_thread self) as [[path []]|]; simpl.
  - left. by rewrite ?Hw2, ?Hw, ?Hn2, ?Hn.
  - right. rewrite ?Hw2, ?Hw, ?Hn2, ?Hn, ?Hb2. repeat split; eauto.
  - right. rewrite ?Hw2, ?Hw, ?Hn2, ?Hn, ?Hb2. repeat split; eauto.
Qed.

Lemma one_worker_step self n ev :
  (workers_started self ≤ n + workers_held self)%nat →
  (scan_button self = true → ocr_worker_thread self = None) →
  (workers_started (handle self ev)
   ≤ n + finished_signals [ev] + workers_held (handle self ev))%nat
  ∧ (scan_button (handle self ev) = true → ocr_worker_thread (handle self ev) = None).
Proof.
  intros Hcount Hidle. destruct ev as [d|name|text| |path content]; simpl.
  - destruct (scan_button self) eqn:Hb; [|split; [lia|by rewrite Hb]].
    specialize (Hidle eq_refl).
    destruct (scan_worker_cases d self)
      as [(Hn & Hw & Hb')|(_ & Hn & [worker Hw] & Hb')].
    + unfold workers_held in *. rewrite Hn, Hw. split; [lia|done].
    + unfold workers_held in *. rewrite Hn, Hw, Hb'. rewrite Hidle in Hcount.
      simpl in *. split; [lia|done].
  - destruct (select_worker_frame true self name) as (Hw & Hn & Hb & _).
    unfold workers_held in *. rewrite Hw, Hn, Hb. split; [lia|done].
  - unfold workers_held in *. simpl. split; [lia|done].
  - unfold workers_held in *. simpl. split; [|done].
    destruct (ocr_worker_thread self); lia.
  - unfold workers_held in *. simpl. split; [lia|done].
Qed.

Lemma one_worker_steps self n evs :
  (workers_started self ≤ n + workers_held self)%nat →
  (scan_button self = true → ocr_worker_thread self = None) →
  (workers_started (handle_all self evs)
   ≤ n + finished_signals evs + workers_held (handle_all self evs))%nat
  ∧ (scan_button (handle_all self evs) = true →
     ocr_worker_thread (handle_all self evs) = None).
Proof.
  revert self n. induction evs as [|ev evs IH]; intros self n Hcount Hidle.
  - simpl. split; [lia|done].
  - destruct (one_worker_step self n ev Hcount Hidle) as [Hcount' Hidle'].
    destruct (IH (handle self ev) (n + finished_signals [ev]) Hcount' Hidle')
      as [Hcount'' Hidle''].
    split; [|done]. simpl in *.
    destruct ev; simpl in *; lia.
Qed.

Section worker_count.
Context {codec : GeometryCodec}.

Lemma load_settings_worker_frame self :
  ocr_worker_thread (load_settings self) = ocr_worker_thread self
  ∧ workers_started (load_settings self) = workers_started self
  ∧ scan_button (load_settings self) = scan_button self
  ∧ text_area (load_settings self) = text_area self.
Proof.
  unfold load_settings, load_settings_last_screenshot, load_settings_no_screenshot,
    display_screenshot_thumbnail, load_settings_language,
    language_combo_setCurrentText, on_language_change, load_settings_geometry.
  by repeat case_match.
Qed.

Lemma startup_idle stored disk :
  ocr_worker_thread (__init__ stored disk) = None
  ∧ workers_started (__init__ stored disk) = 0
  ∧ scan_button (__init__ stored disk) = true
  ∧ text_area (__init__ stored disk) = "".
Proof.
  unfold __init__.
  destruct (load_settings_worker_frame (init_ui (new_window stored disk)))
    as (-> & -> & -> & ->).
  unfold init_ui, language_combo_setCurrentText. by repeat case_match.
Qed.

(** Extra X9.  At most one OCR request is in flight: after the start-up
    and any events, the workers started are at most the [finished] signals
    handled plus the worker the window holds; and while the scan button is
    enabled the window holds no worker, so a click never meets a running
    one. *)
Theorem at_most_one_worker
    (stored : QSettings) (disk : gmap string file) (evs : list event) :
  (workers_started (handle_all (__init__ stored disk) evs)
   ≤ finished_signals evs + workers_held (handle_all (__init__ stored disk) evs))%nat
  ∧ (workers_held (handle_all (__init__ stored disk) evs) ≤ 1)%nat
  ∧ (scan_button (handle_all (__init__ stored disk) evs) = true →
     ocr_worker_thread (handle_all (__init__ stored disk) evs) = None).
Proof.
  destruct (startup_idle stored disk) as (Hw & Hn & Hb & _).
  destruct (one_worker_steps (__init__ stored disk) 0 evs) as [Hcount Hidle].
  { rewrite Hn. lia. }
  { done. }
  split; [done|]. split; [|done].
  unfold workers_held.
  destruct (ocr_worker_thread (handle_all (__init__ stored disk) evs)); lia.
Qed.
End worker_count.

(** *** The capture *)



(** The files after a capture: as before, or with the grabbed image at the
    fixed path. *)
Lemma take_screenshot_files d self :
  files (take_screenshot d self).1 = files self
  ∨ ∃ image, files (take_screenshot d self).1
             = <[DEFAULT_SCREENSHOT_PATH := PngImage image]> (files self).
Proof.
  unfold take_screenshot, take_screenshot_try.
  destruct (primaryScreen d); [|by left]. simpl.
  destruct (grabWindow d _) as [image|e]; [|by left].
  destruct (save d image _) as [[]|e]; simpl; eauto.
Qed.

Lemma scan_files d self :
  files (scan_screen_and_process d self) = files self
  ∨ ∃ image, files (scan_screen_and_process d self)
             = <[DEFAULT_SCREENSHOT_PATH := PngImage image]> (files self).
Proof.
  unfold scan_screen_and_process.
  pose proof (take_screenshot_files d
                (set_text_area (set_scan_button self false) "Taking screenshot..."))
    as Hfiles.
  destruct (take_screenshot d _) as [self1 screenshot_file]. simpl in *.
  assert (∀ file, files (display_screenshot_thumbnail self1 file) = files self1)
    as Hthumb by (intros file; apply display_thumbnail_frame).
  unfold start_worker, worker_is_running.
  repeat case_match; simpl; by rewrite ?Hthumb.
Qed.

(** *** The start-up *)

Section startup_state.
Context {codec : GeometryCodec}.

(** The state the parts of [load_settings] start from and pass on. *)
Lemma startup_frame stored disk :
  settings (__init__ stored disk) = stored
  ∧ files (__init__ stored disk) = disk
  ∧ geometry (__init__ stored disk)
    = geometry (load_settings_geometry (init_ui (new_window stored disk)))
  ∧ current_screenshot_path (__init__ stored disk)
    = match last_screenshot_path_value stored with
      | Some path =>
          if str_bool path && bool_decide (is_Some (disk !! path))
          then Some path else None
      | None => None
      end.
Proof.
  unfold __init__, load_settings.
  pose proof (init_ui_sets stored disk)
    as (Hitems & Htext & Hproc & Hset & Hfiles & _ & _ & Hpath).
  set (self0 := init_ui (new_window stored disk)) in *.
  pose proof (load_settings_geometry_frame self0)
    as (Hs1 & Hp1 & Hc1 & Hf1 & _ & Hpath1).
  set (self1 := load_settings_geometry self0) in *.
  pose proof (load_settings_language_selects self1)
    as (_ & _ & Hs2 & Hg2 & Hf2 & _ & Hpath2).
  { by rewrite Hc1. }
  { by rewrite Hc1, Hs1, Hset. }
  { by rewrite Hp1. }
  set (self2 := load_settings_language self1) in *.
  pose proof (load_settings_last_screenshot_frame self2) as (Hs3 & _ & _ & Hg3 & Hf3).
  rewrite Hs3, Hs2, Hs1, Hset, Hf3, Hf2, Hf1, Hfiles, Hg3, Hg2.
  repeat split.
  unfold load_settings_last_screenshot, load_settings_no_screenshot,
    display_screenshot_thumbnail, path_exists.
  rewrite Hs2, Hs1, Hset, Hf2, Hf1, Hfiles.
  destruct (last_screenshot_path_value stored) as [path|]; simpl;
    [|by rewrite Hpath2, Hpath1].
  destruct (str_bool path && bool_decide (is_Some (disk !! path))); simpl.
  - by repeat case_match.
  - by rewrite Hpath2, Hpath1.
Qed.

(** Extra X10.  The start-up reads the settings and writes none: the store
    is left as it was found, stale values included.  The window starts with
    the scan button enabled, no worker and no text; its geometry is the one
    of the constructor when no geometry is stored, when the stored blob is
    empty, and when Qt refuses the blob; and it takes up the stored
    screenshot path only if the file exists. *)
Theorem startup_reads_settings_only (stored : QSettings) (disk : gmap string file) :
  settings (__init__ stored disk) = stored
  ∧ files (__init__ stored disk) = disk
  ∧ scan_button (__init__ stored disk) = true
  ∧ ocr_worker_thread (__init__ stored disk) = None
  ∧ text_area (__init__ stored disk) = ""
  ∧ (match geometry_value stored with
     | Some (b :: blob) => restoreGeometry (b :: blob) = None
     | _ => True
     end →
     geometry (__init__ stored disk)
     = {| x := 100; y := 100; width := 800; height := 600 |})
  ∧ current_screenshot_path (__init__ stored disk)
    = match last_screenshot_path_value stored with
      | Some path =>
          if str_bool path && bool_decide (is_Some (disk !! path))
          then Some path else None
      | None => None
      end.
Proof.
  destruct (startup_frame stored disk) as (Hs & Hf & Hg & Hpath).
  destruct (startup_idle stored disk) as (Hw & _ & Hb & Ht).
  repeat split; try done.
  intros Hblob. rewrite Hg.
  pose proof (init_ui_sets stored disk) as (_ & _ & _ & Hset & _ & Hg0 & _).
  unfold load_settings_geometry. rewrite Hset.
  destruct (geometry_value stored) as [[|b blob]|]; try done.
  by rewrite Hblob.
Qed.

(** *** Shutdown after a failed capture *)

Lemma closeEvent_last_path self :
  last_screenshot_path_value (settings (closeEvent self))
  = match current_screenshot_path self with
    | Some path =>
        if str_bool path && path_exists self path then Some path else None
    | None => None
    end.
Proof. unfold closeEvent. by repeat case_match. Qed.

(** Extra X12.  A capture that fails at the grab or at the save sets
    [current_screenshot_path] to [None], so closing the window after it
    removes [last_screenshot_path] from the settings, even when an earlier
    screenshot is still on disk.  A capture that fails for want of a screen
    leaves [current_screenshot_path] and the files as they were, so closing
    stores what it would have stored before. *)
Theorem failed_capture_forgets_screenshot (d : Display) (self : ScreenshotApp) :
  capture_fails d →
  (primaryScreen d = true →
   current_screenshot_path (scan_screen_and_process d self) = None
   ∧ last_screenshot_path_value
       (settings (closeEvent (scan_screen_and_process d self))) = None)
  ∧ (primaryScreen d = false →
     current_screenshot_path (scan_screen_and_process d self)
     = current_screenshot_path self
     ∧ last_screenshot_path_value
         (settings (closeEvent (scan_screen_and_process d self)))
       = last_screenshot_path_value (settings (closeEvent self))).
Proof.
  intros Hfails.
  assert (∀ self0,
            (primaryScreen d = true →
             current_screenshot_path (take_screenshot d self0).1 = None)
            ∧ (primaryScreen d = false →
               current_screenshot_path (take_screenshot d self0).1
               = current_screenshot_path self0
               ∧ files (take_screenshot d self0).1 = files self0)) as Hcapture.
  { intros self0. unfold take_screenshot, take_screenshot_try.
    unfold capture_fails in Hfails.
    destruct (primaryScreen d); [|by split]. split; [|done]. intros _.
    rewrite pos_move.
    destruct Hfails as [?|[[e ->]|(image & -> & [->| [e ->]])]]; done. }
  pose proof (take_screenshot_fails d
                (set_text_area (set_scan_button self false) "Taking screenshot...")
                Hfails) as Hnone.
  specialize (Hcapture (set_text_area (set_scan_button self false)
                          "Taking screenshot...")).
  assert (current_screenshot_path (scan_screen_and_process d self)
          = current_screenshot_path
              (take_screenshot d (set_text_area (set_scan_button self false)
                                    "Taking screenshot...")).1
          ∧ files (scan_screen_and_process d self)
            = files (take_screenshot d (set_text_area (set_scan_button self false)
                                          "Taking screenshot...")).1)
    as [Hpath Hfiles].
  { unfold scan_screen_and_process.
    destruct (take_screenshot d _) as [self1 screenshot_file].
    simpl in Hnone. by subst screenshot_file. }
  destruct Hcapture as [Hscreen Hnoscreen]. split.
  - intros Htrue. rewrite closeEvent_last_path, Hpath, (Hscreen Htrue). done.
  - intros Hfalse. destruct (Hnoscreen Hfalse) as [Hp Hf].
    rewrite !closeEvent_last_path. unfold path_exists.
    by rewrite Hpath, Hfiles, Hp, Hf.
Qed.
End startup_state.

Lemma startup_reads_settings_only_witness :
  geometry (@main_app.__init__ sample_codec
              {| geometry_value := Some [Byte.x00; Byte.x07];
                 language_value := Some "Klingon";
                 last_screenshot_path_value := Some "gone.png" |} ∅)
  = {| x := 100; y := 100; width := 800; height := 600 |}.
Proof.
  apply (proj1 (proj2 (proj2 (proj2 (proj2 (proj2
           (@startup_reads_settings_only sample_codec
              {| geometry_value := Some [Byte.x00; Byte.x07];
                 language_value := Some "Klingon";
                 last_screenshot_path_value := Some "gone.png" |} ∅))))))).
  reflexivity.
Defined.

Lemma failed_capture_forgets_screenshot_witness :
  is_Some (files idle_window !! DEFAULT_SCREENSHOT_PATH)
  ∧ last_screenshot_path_value (settings (@closeEvent sample_codec idle_window))
    = Some DEFAULT_SCREENSHOT_PATH
  ∧ last_screenshot_path_value
      (settings (@closeEvent sample_codec (scan_screen_and_process grab_raises idle_window)))
    = None.
Proof.
  split; [eexists; by vm_compute|]. split; [by vm_compute|].
  apply (proj1 (@failed_capture_forgets_screenshot sample_codec grab_raises idle_window
                  ltac:(right; left; by eexists))).
  reflexivity.
Defined.

(** *** The states the window reaches *)

Section reached_states.
Context {codec : GeometryCodec}.

(** Extra X13.  Closing the window in any state it reaches and starting a
    fresh instance on the settings gives back the geometry, the selected
    language and the language code of the adapter, whatever files the fresh
    instance finds. *)
Theorem restart_restores_reached_window `{!GeometryCodecLaws codec}
    (stored : QSettings) (disk disk' : gmap string file) (evs : list event) :
  geometry (__init__ (settings (closeEvent (handle_all (__init__ stored disk) evs))) disk')
  = geometry (handle_all (__init__ stored disk) evs)
  ∧ currentText
      (language_combo
         (__init__ (settings (closeEvent (handle_all (__init__ stored disk) evs))) disk'))
    = currentText (language_combo (handle_all (__init__ stored disk) evs))
  ∧ current_lang
      (ocr_processor
         (__init__ (settings (closeEvent (handle_all (__init__ stored disk) evs))) disk'))
    = current_lang (ocr_processor (handle_all (__init__ stored disk) evs)).
Proof.
  pose proof (startup_language stored disk) as (Hitems & _ & Hinv).
  destruct (handle_all_keeps_invariant _ evs Hitems Hinv)
    as (_ & code & Hcode & Hcur & _).
  set (window := handle_all (__init__ stored disk) evs) in *.
  set (saved := settings (closeEvent window)).
  assert (geometry_value saved = Some (saveGeometry (geometry window))) as Hgeo.
  { unfold saved, closeEvent. by repeat case_match. }
  assert (language_value saved = Some (currentText (language_combo window))) as Hlang.
  { unfold saved, closeEvent. by repeat case_match. }
  pose proof (startup_language saved disk') as (_ & Htext & code' & Hcode' & Hcur' & _).
  unfold selected_at_startup in Htext. rewrite Hlang in Htext. simpl in Htext.
  rewrite bool_decide_eq_true_2 in Htext by eauto.
  split; [|split; [done|]].
  - pose proof (init_ui_sets saved disk') as (Hi0 & Ht0 & Hp0 & Hset & _).
    unfold __init__, load_settings.
    set (self0 := init_ui (new_window saved disk')) in *.
    pose proof (load_settings_geometry_frame self0) as (Hs1 & Hp1 & Hc1 & _).
    assert (geometry (load_settings_geometry self0) = geometry window) as Hg1.
    { unfold load_settings_geometry. rewrite Hset, Hgeo.
      pose proof (save_nonempty (geometry window)) as Hne.
      pose proof (restore_save (geometry window)) as Hrs.
      destruct (saveGeometry (geometry window)) as [|b blob]; [done|].
      by rewrite Hrs. }
    set (self1 := load_settings_geometry self0) in *.
    pose proof (load_settings_language_selects self1) as (_ & _ & _ & Hg2 & _).
    { by rewrite Hc1. }
    { by rewrite Hc1, Hs1, Hset. }
    { by rewrite Hp1. }
    pose proof (load_settings_last_screenshot_frame (load_settings_language self1))
      as (_ & _ & _ & Hg3 & _).
    by rewrite Hg3, Hg2.
  - rewrite Htext in Hcode'. congruence.
Qed.
End reached_states.

Lemma at_most_one_worker_witness :
  scan_button (handle_all (@main_app.__init__ sample_codec no_settings ∅) sample_events)
  = true
  ∧ ocr_worker_thread
      (handle_all (@main_app.__init__ sample_codec no_settings ∅) sample_events)
    = None.
Proof.
  split; [by vm_compute|].
  apply (proj2 (proj2 (@at_most_one_worker sample_codec no_settings ∅ sample_events))).
  by vm_compute.
Defined.

Lemma sample_codec_restores : GeometryCodecLaws sample_codec.
Proof.
  split; [|done].
  intros [gx gy gw gh]. unfold restoreGeometry, saveGeometry, sample_codec.
  assert (∀ p, of_digits (digits_of p) = Some p) as ->.
  { intros p. induction p as [p IH|p IH|]; simpl; by rewrite ?IH. }
  simpl. by rewrite decode_encode.
Qed.

Lemma restart_restores_reached_window_witness :
  geometry
    (@main_app.__init__ sample_codec
       (settings (@closeEvent sample_codec
                    (handle_all (@main_app.__init__ sample_codec no_settings ∅)
                       scan_events)))
       ∅)
  = geometry (handle_all (@main_app.__init__ sample_codec no_settings ∅) scan_events)
  ∧ currentText
      (language_combo
         (@main_app.__init__ sample_codec
            (settings (@closeEvent sample_codec
                         (handle_all (@main_app.__init__ sample_codec no_settings ∅)
                            scan_events)))
            ∅))
    = currentText
        (language_combo
           (handle_all (@main_app.__init__ sample_codec no_settings ∅) scan_events))
  ∧ current_lang
      (ocr_processor
         (@main_app.__init__ sample_codec
            (settings (@closeEvent sample_codec
                         (handle_all (@main_app.__init__ sample_codec no_settings ∅)
                            scan_events)))
            ∅))
    = current_lang
        (ocr_processor
           (handle_all (@main_app.__init__ sample_codec no_settings ∅) scan_events)).
Proof.
  exact (@restart_restores_reached_window sample_codec sample_codec_restores
           no_settings ∅ ∅ scan_events).
Defined.

End window_behaviour.

(** ** Facts about the calls with their effects *)
Module effect_facts.
Import ocr_utils main_app ocr_spec app_spec behaviour_spec io_spec.
Import string_facts ocr_facts app_facts language_facts.

(** The fragments to keep are those the code joins. *)
Lemma kept_fragments_item o : kept_fragments o = item_fragments o.
Proof.
  unfold kept_fragments, item_fragments, json_fragments, list_fragments.
  assert (strip <$> filter (fun s => strip s ≠ "")
                      match obj_list o with
                      | Some lines => omap line_info_text lines
                      | None => []
                      end
          = match obj_list o with
            | Some lines => current_res_lines_texts lines
            | None => []
            end) as Hlegacy.
  { destruct (obj_list o) as [lines|]; [|done].
    by rewrite current_res_lines_texts_filter. }
  destruct (rec_texts_of o) as [[rec_texts|]|e]; try done.
  rewrite <- meaningful_texts_filter.
  by destruct (meaningful_texts rec_texts).
Qed.

Lemma kept_text_region_texts results :
  kept_text results
  = match region_texts results with
    | [] => None
    | texts => Some (join region_sep texts)
    end.
Proof.
  unfold kept_text, region_texts.
  assert (kept_fragments <$> results = item_fragments <$> results) as ->.
  { apply list_fmap_ext. intros _ o _. apply kept_fragments_item. }
  by destruct (filter _ _).
Qed.

Lemma kept_text_only_blank results :
  Forall only_blank results → kept_text results = None.
Proof.
  intros Hall. rewrite kept_text_region_texts. unfold region_texts.
  rewrite filter_none; [done|].
  apply Forall_fmap. eapply Forall_impl; [exact Hall|].
  intros o Ho. simpl. rewrite only_blank_no_fragments by done.
  intros Hne. by apply Hne.
Qed.

(** A kept fragment is not blank, and comes from the object. *)
Lemma kept_fragments_not_blank o :
  Forall (fun s => strip s ≠ "") (kept_fragments o).
Proof.
  rewrite kept_fragments_item.
  eapply Forall_impl; [apply item_fragments_nonspace|].
  intros s Hs. simpl in Hs. apply str_bool_true. by rewrite str_bool_strip.
Qed.

Section with_runtime.
Variable rt : runtime.

(** What follows a [print] runs when the [print] returns. *)
Lemma after_print {A} (line : string) (k : effect A) (P : effect A → Prop) :
  P k →
  (∀ r, escapes rt r → P (Throws r)) →
  P (_ ← rt_print rt line; k).
Proof.
  intros Hk Hr. destruct (rt_print rt line) as [[]|r] eqn:Hp; simpl; [done|].
  apply Hr. left. by exists line.
Qed.

Lemma rec_texts_of_shape o :
  rec_texts_of o
  = match ocr_utils_io.json_shape_of o with
    | Returns (ocr_utils_io.RecTexts rec_texts) => Returns (Some rec_texts)
    | Returns _ => Returns None
    | Raises e => Raises e
    end.
Proof.
  unfold rec_texts_of, ocr_utils_io.json_shape_of.
  by repeat case_match.
Qed.

(** The inner [try] leaves [item_text] as the structured field gives it,
    whatever the console does. *)
Lemma json_try_item_text n o :
  rt_json_exit rt o = None →
  (ocr_utils_io.json_try rt n o).1 = item_text_from_json o.
Proof.
  intros Hread.
  unfold ocr_utils_io.json_try, item_text_from_json, json_strategy.
  rewrite Hread, rec_texts_of_shape.
  destruct (ocr_utils_io.json_shape_of o) as [[| | |rec_texts]|e]; simpl; try done.
  by destruct (meaningful_texts rec_texts).
Qed.

Lemma json_try_exit n o c :
  (ocr_utils_io.json_try rt n o).2 = Throws (OutsideException c) →
  escapes rt (OutsideException c).
Proof.
  unfold ocr_utils_io.json_try.
  destruct (rt_json_exit rt o) as [c'|] eqn:Hread.
  { simpl. intros [= <-]. right. exists o, c'. auto. }
  destruct (ocr_utils_io.json_shape_of o) as [[| | |rec_texts]|e];
    try destruct (meaningful_texts rec_texts);
    simpl; intros Hp; first [done|left; by eexists].
Qed.

Lemma json_step_cases n o :
  ocr_utils_io.json_step rt n o = Value (item_text_from_json o)
  ∨ ∃ r, ocr_utils_io.json_step rt n o = Throws r ∧ escapes rt r.
Proof.
  unfold ocr_utils_io.json_step.
  pose proof (json_try_item_text n o) as Hit.
  pose proof (json_try_exit n o) as Hexit.
  destruct (ocr_utils_io.json_try rt n o) as [item_text ended] eqn:Htry.
  simpl in Hit, Hexit.
  assert (rt_json_exit rt o = None ∨ ∃ c, ended = Throws (OutsideException c))
    as [Hread|[c ->]].
  { unfold ocr_utils_io.json_try in Htry.
    destruct (rt_json_exit rt o) as [c|]; [|by left].
    injection Htry as _ <-. right. by exists c. }
  - rewrite Hit by done.
    destruct ended as [[]|[e|c]].
    + by left.
    + apply after_print; [by left|intros r Hr; right; by exists r].
    + right. exists (OutsideException c). split; [done|]. by apply Hexit.
  - right. exists (OutsideException c). split; [done|]. by apply Hexit.
Qed.

Lemma list_step_cases n o item_text :
  ocr_utils_io.list_step rt n o item_text = Value (list_strategy o item_text)
  ∨ ∃ r, ocr_utils_io.list_step rt n o item_text = Throws r ∧ escapes rt r.
Proof.
  unfold ocr_utils_io.list_step, list_strategy.
  destruct (obj_list o) as [lines|]; [|by left].
  destruct (negb (opt_str_bool item_text)); [|by left].
  apply after_print; [|intros r Hr; right; by exists r].
  destruct (current_res_lines_texts lines) as [|t texts]; [by left|].
  apply after_print; [by left|intros r Hr; right; by exists r].
Qed.

(** One turn of the loop: it gives what [extract_item] gives, or is left by
    what escapes, or by what [str(res_obj)] raises within [Exception]. *)
Lemma extract_item_cases n o :
  (∃ item_text, ocr_utils_io.extract_item rt n o = Value item_text
                ∧ extract_item o = Returns item_text)
  ∨ (∃ r, ocr_utils_io.extract_item rt n o = Throws r ∧ escapes rt r)
  ∨ (∃ e, ocr_utils_io.extract_item rt n o = Throws (OfException e)
          ∧ extract_item o = Raises e).
Proof.
  unfold ocr_utils_io.extract_item, extract_item.
  apply after_print; [|intros r Hr; right; left; by exists r].
  destruct (json_step_cases n o) as [->|(r & -> & Hr)]; simpl; cycle 1.
  { right. left. by exists r. }
  destruct (list_step_cases n o (item_text_from_json o)) as [->|(r & -> & Hr)];
    simpl; cycle 1.
  { right. left. by exists r. }
  destruct (opt_str_bool _) eqn:Htruthy.
  { left. by eexists. }
  unfold ocr_utils_io.str_of.
  destruct (rt_str_exit rt o) as [c|] eqn:Hstr; simpl.
  { right. left. exists (OutsideException c). split; [done|].
    right. exists o, c. auto. }
  destruct (obj_str o) as [details|e]; simpl; cycle 1.
  { right. right. by exists e. }
  apply after_print; [|intros r Hr; right; left; by exists r].
  left. by eexists.
Qed.

Lemma collect_texts_cases i results acc :
  (∃ texts, ocr_utils_io.collect_texts rt i results acc = Value texts
            ∧ collect_texts results acc = Returns texts)
  ∨ (∃ r, ocr_utils_io.collect_texts rt i results acc = Throws r ∧ escapes rt r)
  ∨ (∃ e, ocr_utils_io.collect_texts rt i results acc = Throws (OfException e)).
Proof.
  revert i acc. induction results as [|o results IH]; intros i acc; simpl.
  { left. by eexists. }
  destruct (extract_item_cases (S i) o)
    as [(item_text & -> & ->)|[(r & -> & Hr)|(e & -> & ->)]]; simpl.
  - destruct item_text as [text|]; apply IH.
  - right. left. by exists r.
  - right. right. by exists e.
Qed.

(** The body of the outer [try]. *)
Lemma process_image_body_cases engine image_path :
  (∃ result, ocr_utils_io.process_image_body rt engine image_path = Value result
     ∧ ∃ answer, rt_predict rt engine image_path = Value answer
        ∧ process_image_body (fun _ _ => Returns answer) engine image_path
          = Returns result)
  ∨ (∃ e, ocr_utils_io.process_image_body rt engine image_path
          = Throws (OfException e))
  ∨ (∃ c, ocr_utils_io.process_image_body rt engine image_path
          = Throws (OutsideException c)
          ∧ (escapes rt (OutsideException c)
             ∨ rt_predict rt engine image_path = Throws (OutsideException c))).
Proof.
  unfold ocr_utils_io.process_image_body, process_image_body.
  destruct (rt_predict rt engine image_path) as [answer|[e|c]] eqn:Hpredict; simpl.
  2: { right. left. by exists e. }
  2: { right. right. exists c. split; [done|by right]. }
  assert (∀ r (x : effect (option string)) (Q : string → Prop),
            x = Throws r → escapes rt r →
            (∃ e, x = Throws (OfException e))
            ∨ (∃ c, x = Throws (OutsideException c)
                 ∧ (escapes rt (OutsideException c) ∨ Q c)))
    as Hthrown.
  { intros [e|c] x Q -> Hr; [left; by exists e|].
    right. exists c. split; [done|by left]. }
  destruct answer as [[|o results]|].
  - apply after_print.
    + left. eexists. split; [done|]. by eexists.
    + intros r Hr. right. by eapply (Hthrown r).
  - apply after_print; [|intros r Hr; right; by eapply (Hthrown r)].
    destruct (collect_texts_cases 0 (o :: results) [])
      as [(texts & -> & Hc)|[(r & -> & Hr)|(e & ->)]].
    + change (_ ← Value texts; ?k) with k.
      destruct texts as [|t texts].
      * apply after_print.
        -- left. eexists. split; [done|]. eexists. split; [done|].
           simpl in Hc |- *. by rewrite Hc.
        -- intros r Hr. right. by eapply (Hthrown r).
      * left. eexists. split; [done|]. eexists. split; [done|].
        simpl in Hc |- *. by rewrite Hc.
    + right. by eapply (Hthrown r).
    + right. left. by exists e.
  - apply after_print.
    + left. eexists. split; [done|]. by eexists.
    + intros r Hr. right. by eapply (Hthrown r).
Qed.

End with_runtime.
End effect_facts.

(** ** Facts about [process_image] with its effects *)
Module adapter_effect_facts.
Import ocr_utils main_app ocr_spec app_spec behaviour_spec io_spec.
Import string_facts ocr_facts app_facts language_facts effect_facts.

(** A text the body of the [try] returns is the text of the kept
    fragments. *)
Lemma process_image_body_kept predict engine image_path results result :
  predict engine image_path = Returns (Some results) →
  process_image_body predict engine image_path = Returns result →
  result = kept_text results.
Proof.
  intros Hpredict. unfold process_image_body. rewrite Hpredict. simpl.
  rewrite kept_text_region_texts.
  destruct results as [|o results]; [by intros [= <-]|].
  destruct (collect_texts (o :: results) []) as [texts|e] eqn:Hc; [|done].
  apply collect_texts_returns in Hc. rewrite app_nil_l in Hc.
  fold (region_texts (o :: results)) in Hc. rewrite <- Hc.
  simpl. destruct texts; by intros [= <-].
Qed.

Lemma process_image_kept fs predict self image_path results text :
  (∀ engine, ocr_instance self = Some engine →
             predict engine image_path = Returns (Some results)) →
  process_image fs predict self image_path = Returns (Some text) →
  Some text = kept_text results.
Proof.
  intros Hpredict. unfold process_image.
  destruct (ocr_instance self) as [engine|]; [|done].
  destruct (negb _); [done|].
  destruct (process_image_body predict engine image_path) as [result|e] eqn:Hbody;
    simpl; [|done].
  intros [= ->]. by eapply process_image_body_kept; [apply Hpredict|].
Qed.

Lemma process_image_printable fs predict self image_path engine results :
  ocr_instance self = Some engine →
  image_path ∈ fs →
  predict engine image_path = Returns (Some results) →
  Forall (fun o => kept_fragments o = [] → printable o) results →
  process_image fs predict self image_path = Returns (kept_text results).
Proof.
  intros Hengine Hpath Hpredict Hprint.
  unfold process_image, os_path_exists, process_image_body.
  rewrite Hengine, bool_decide_eq_true_2, Hpredict by done. simpl.
  rewrite kept_text_region_texts.
  destruct results as [|o results]; [done|].
  rewrite adapter_behaviour.collect_texts_printable; cycle 1.
  { eapply Forall_impl; [exact Hprint|]. intros o' Ho' Hnone.
    apply Ho'. by rewrite kept_fragments_item. }
  simpl. by destruct (region_texts (o :: results)).
Qed.

Lemma process_image_blank fs predict self image_path results :
  (∀ engine, ocr_instance self = Some engine →
             predict engine image_path = Returns (Some results)) →
  Forall only_blank results →
  process_image fs predict self image_path = Returns None.
Proof.
  intros Hpredict Hblank.
  destruct (process_image_cases fs predict self image_path)
    as [?|(engine & results' & texts & Hengine & _ & Hp & Hc & Hne & _)]; [done|].
  rewrite (Hpredict engine Hengine) in Hp. injection Hp as <-.
  by apply collect_texts_only_blank in Hc.
Qed.

Section with_runtime.
Variable rt : runtime.

(** What [process_image] returns with its effects, it returns without. *)
Lemma process_image_value_text fs self image_path text :
  ocr_utils_io.process_image rt fs self image_path = Value (Some text) →
  ∃ engine answer,
    ocr_instance self = Some engine
    ∧ image_path ∈ fs
    ∧ rt_predict rt engine image_path = Value answer
    ∧ process_image fs (fun _ _ => Returns answer) self image_path
      = Returns (Some text).
Proof.
  unfold ocr_utils_io.process_image, process_image, os_path_exists.
  destruct (ocr_instance self) as [engine|].
  2: { apply (after_print rt); [done|]. by intros r _. }
  case_bool_decide as Hpath; simpl.
  2: { apply (after_print rt); [done|]. by intros r _. }
  destruct (process_image_body_cases rt engine image_path)
    as [(result & -> & answer & Hpredict & Hbody)|[(e & ->)|(c & -> & _)]];
    simpl.
  - intros [= ->]. exists engine, answer. by rewrite Hbody.
  - apply (after_print rt); [done|]. by intros r _.
  - done.
Qed.

(** What leaves [process_image] was raised by a [print], or outside
    [Exception] by a read of a result object or by [predict]. *)
Lemma process_image_throws fs self image_path r :
  ocr_utils_io.process_image rt fs self image_path = Throws r →
  escapes rt r
  ∨ ∃ engine c,
      ocr_instance self = Some engine ∧ image_path ∈ fs
      ∧ r = OutsideException c
      ∧ rt_predict rt engine image_path = Throws r.
Proof.
  unfold ocr_utils_io.process_image.
  assert (∀ (x : effect (option string)) line,
            (_ ← rt_print rt line; x) = Throws r → x = Throws r ∨ from_print rt r)
    as Hprint.
  { intros x line. destruct (rt_print rt line) as [[]|r'] eqn:Hp; simpl.
    - by left.
    - intros [= <-]. right. by exists line. }
  destruct (ocr_instance self) as [engine|].
  2: { intros [?|?]%Hprint; [done|by left; left]. }
  case_bool_decide as Hpath; simpl.
  2: { intros [?|?]%Hprint; [done|by left; left]. }
  destruct (process_image_body_cases rt engine image_path)
    as [(result & -> & _)|[(e & ->)|(c & -> & [Hc|Hc])]]; simpl.
  - done.
  - intros [?|?]%Hprint; [done|by left; left].
  - intros [= <-]. by left.
  - intros [= <-]. right. by exists engine, c.
Qed.

(** With a console that takes every line, the calls are those of
    [ocr_utils], as long as [predict] stays within [Exception]. *)
Lemma nothing_escapes r :
  console_open rt → reads_within_Exception rt → ¬ escapes rt r.
Proof.
  intros Hopen Hreads [[line Hline]|(o & c & _ & [Hread|Hread])].
  - by rewrite Hopen in Hline.
  - destruct (Hreads o) as [Hjson _]. by rewrite Hjson in Hread.
  - destruct (Hreads o) as [_ Hstr]. by rewrite Hstr in Hread.
Qed.

Lemma extract_item_console_open n o :
  console_open rt → reads_within_Exception rt →
  ocr_utils_io.extract_item rt n o = of_outcome (extract_item o).
Proof.
  intros Hopen Hreads.
  pose proof (fun r => nothing_escapes r Hopen Hreads) as Hnone.
  destruct (extract_item_cases rt n o)
    as [(item_text & -> & ->)|[(r & _ & Hr)|(e & -> & ->)]]; [done| |done].
  by apply Hnone in Hr.
Qed.

Lemma collect_texts_console_open i results acc :
  console_open rt → reads_within_Exception rt →
  ocr_utils_io.collect_texts rt i results acc
  = of_outcome (collect_texts results acc).
Proof.
  intros Hopen Hreads. revert i acc.
  induction results as [|o results IH]; intros i acc; simpl; [done|].
  rewrite extract_item_console_open by done.
  destruct (extract_item o) as [[text|]|e]; simpl; [apply IH|apply IH|done].
Qed.

Lemma print_console_open {A} line (k : effect A) :
  console_open rt → (_ ← rt_print rt line; k) = k.
Proof. intros Hopen. by rewrite (Hopen line). Qed.

Lemma process_image_console_open fs predict self image_path :
  console_open rt → reads_within_Exception rt →
  (∀ engine, ocr_instance self = Some engine →
             rt_predict rt engine image_path = of_outcome (predict engine image_path)) →
  ocr_utils_io.process_image rt fs self image_path
  = of_outcome (process_image fs predict self image_path).
Proof.
  intros Hopen Hreads Hpredict.
  unfold ocr_utils_io.process_image, process_image, os_path_exists.
  destruct (ocr_instance self) as [engine|]; [|by rewrite print_console_open].
  case_bool_decide as Hpath; simpl; [|by rewrite print_console_open].
  unfold ocr_utils_io.process_image_body, process_image_body.
  rewrite (Hpredict engine) by done.
  destruct (predict engine image_path) as [[[|o results]|]|e];
    [simpl; by rewrite !print_console_open| |
     simpl; by rewrite !print_console_open..].
  pose proof (collect_texts_console_open 0 (o :: results) [] Hopen Hreads) as Hc.
  change (of_outcome (Returns (Some (o :: results))))
    with (Value (Some (o :: results))).
  cbn [mbind effect_bind outcome_bind].
  rewrite print_console_open by done. rewrite Hc.
  destruct (collect_texts (o :: results) []) as [[|t texts]|e]; simpl;
    by rewrite ?print_console_open.
Qed.
End with_runtime.
End adapter_effect_facts.

(** ** The claims about the adapter, with the effects *)
Module ocr_effects.
Import ocr_utils main_app ocr_spec app_spec behaviour_spec io_spec.
Import string_facts ocr_facts effect_facts adapter_effect_facts.




(** Claim C3.  The text [process_image] returns is made of the fragments
    that are not blank and of no other: it is the text of [kept_text],
    which filters the fragments of the structured field and, when none is
    left, those of the legacy shape, stripped.  This is the result whenever
    the objects without text can be printed; an answer whose fragments are
    all blank gives [None]; and a call with its effects that returns a text
    returns that same text. *)
Theorem blank_fragments_discarded fs predict self image_path results :
  (∀ engine, ocr_instance self = Some engine →
             predict engine image_path = Returns (Some results)) →
  (∀ text, process_image fs predict self image_path = Returns (Some text) →
           Some text = kept_text results)
  ∧ (is_Some (ocr_instance self) → image_path ∈ fs →
     Forall (fun o => kept_fragments o = [] → printable o) results →
     process_image fs predict self image_path = Returns (kept_text results))
  ∧ (Forall only_blank results →
     kept_text results = None
     ∧ process_image fs predict self image_path = Returns None)
  ∧ Forall (Forall (fun s => strip s ≠ "")) (kept_fragments <$> results)
  ∧ (∀ rec_texts,
       meaningful_texts rec_texts
       = filter (fun s => strip s ≠ "") (py_strings rec_texts))
  ∧ (∀ lines,
       current_res_lines_texts lines
       = strip <$> filter (fun s => strip s ≠ "") (omap line_info_text lines))
  ∧ (∀ (rt : runtime) text,
       (∀ engine, ocr_instance self = Some engine →
                  rt_predict rt engine image_path = Value (Some results)) →
       ocr_utils_io.process_image rt fs self image_path = Value (Some text) →
       Some text = kept_text results).
Proof.
  intros Hpredict.
  split; [|split; [|split; [|split; [|split; [|split]]]]].
  - intros text. by apply process_image_kept.
  - intros [engine Hengine] Hpath Hprint.
    eapply process_image_printable; eauto.
  - intros Hblank. split; [by apply kept_text_only_blank|].
    by apply process_image_blank with results.
  - apply Forall_fmap, Forall_forall. intros o _. apply kept_fragments_not_blank.
  - apply meaningful_texts_filter.
  - apply current_res_lines_texts_filter.
  - intros rt text Hrt
      (engine & answer & Hengine & _ & Hanswer & Hcall)%process_image_value_text.
    rewrite (Hrt engine Hengine) in Hanswer. injection Hanswer as <-.
    apply process_image_kept with (results := results) in Hcall; [done|].
    by intros.
Qed.

Lemma blank_fragments_discarded_witness :
  process_image sample_fs (engine_answering mixed_regions)
    sample_processor sample_path
  = Returns (kept_text mixed_regions)
  ∧ kept_text mixed_regions = Some ("a" ++ LF ++ "b" ++ LF ++ "---" ++ LF ++ "c")
  ∧ process_image sample_fs (engine_answering blank_results)
      sample_processor sample_path
    = Returns None.
Proof.
  split; [|split; [by vm_compute|]].
  - apply (proj1 (proj2 (blank_fragments_discarded sample_fs
                           (engine_answering mixed_regions)
                           sample_processor sample_path mixed_regions
                           (fun _ _ => eq_refl)))).
    + by eexists.
    + by vm_compute.
    + repeat constructor; by vm_compute.
  - apply (proj2 (proj1 (proj2 (proj2 (blank_fragments_discarded sample_fs
                           (engine_answering blank_results)
                           sample_processor sample_path blank_results
                           (fun _ _ => eq_refl)))) ocr_correct.blank_results_only_blank)).
Defined.

End ocr_effects.

(** ** Facts about the window with its effects *)
Module window_effect_facts.
Import ocr_utils main_app ocr_spec app_spec behaviour_spec io_spec.
Import string_facts ocr_facts app_facts capture_facts language_facts.
Import effect_facts adapter_effect_facts.

Section with_runtime.
Variable rt : runtime.

(** *** [set_language] *)

Lemma set_language_current_lang p c :
  current_lang (ocr_utils_io.set_language rt p c).1 = c.
Proof.
  unfold ocr_utils_io.set_language, ocr_utils_io._initialize_ocr_instance.
  case_bool_decide as Hne; simpl; [|done].
  destruct (rt_construct rt c) as [[]|r]; simpl; [|done].
  by destruct (rt_print rt _).
Qed.

(** When the constructor returns, the adapter is the one of [ocr_utils],
    whatever the reports do. *)
Lemma set_language_built p c :
  rt_construct rt c = Value () →
  (ocr_utils_io.set_language rt p c).1 = ocr_utils.set_language p c.
Proof.
  intros Hbuilt.
  unfold ocr_utils_io.set_language, ocr_utils_io._initialize_ocr_instance,
    ocr_utils.set_language.
  case_bool_decide as Hne; [|done]. simpl. rewrite Hbuilt. simpl.
  by destruct (rt_print rt _).
Qed.

Lemma set_language_returns p c :
  (ocr_utils_io.set_language rt p c).2 = Value () →
  (ocr_utils_io.set_language rt p c).1 = ocr_utils.set_language p c.
Proof.
  unfold ocr_utils_io.set_language, ocr_utils_io._initialize_ocr_instance,
    ocr_utils.set_language.
  case_bool_decide as Hne; [|done]. simpl.
  destruct (rt_construct rt c) as [[]|r]; simpl; [|done].
  by destruct (rt_print rt _).
Qed.

(** When the constructor raises, the engine stays the one it was. *)
Lemma set_language_not_built p c r :
  c ≠ current_lang p →
  rt_construct rt c = Throws r →
  ocr_utils_io.set_language rt p c
  = ({| current_lang := c;
        ocr_instance := ocr_instance p;
        instances_created := instances_created p |}, Throws r).
Proof.
  intros Hne Hfail.
  unfold ocr_utils_io.set_language, ocr_utils_io._initialize_ocr_instance.
  rewrite bool_decide_eq_true_2 by done. simpl. by rewrite Hfail.
Qed.

Lemma init_returns c p :
  ocr_utils_io.__init__ rt c = Value p → p = ocr_utils.__init__ c.
Proof.
  unfold ocr_utils_io.__init__, ocr_utils_io._initialize_ocr_instance,
    ocr_utils.__init__. simpl.
  destruct (rt_construct rt c) as [[]|r]; simpl; [|done].
  destruct (rt_print rt _) as [[]|r]; simpl; [|done].
  by intros [= <-].
Qed.

(** *** The slot of the combo box *)

Lemma on_language_change_frame self name :
  let self' := (main_app_io.on_language_change rt self name).1 in
  geometry self' = geometry self
  ∧ language_combo self' = language_combo self
  ∧ files self' = files self
  ∧ ocr_worker_thread self' = ocr_worker_thread self
  ∧ scan_button self' = scan_button self
  ∧ workers_started self' = workers_started self
  ∧ text_area self' = text_area self
  ∧ screenshot_label self' = screenshot_label self
  ∧ current_screenshot_path self' = current_screenshot_path self.
Proof.
  unfold main_app_io.on_language_change.
  destruct (AVAILABLE_LANGUAGES !! name) as [code|]; [|done].
  destruct (str_bool code); [|done].
  destruct (ocr_utils_io.set_language rt (ocr_processor self) code)
    as [processor [[]|r]]; done.
Qed.

Lemma on_language_change_processor self name code :
  AVAILABLE_LANGUAGES !! name = Some code →
  ocr_processor (main_app_io.on_language_change rt self name).1
  = (ocr_utils_io.set_language rt (ocr_processor self) code).1.
Proof.
  intros Hcode. unfold main_app_io.on_language_change.
  rewrite Hcode, (language_codes_truthy name code) by done.
  destruct (ocr_utils_io.set_language rt (ocr_processor self) code)
    as [processor [[]|r]]; done.
Qed.

Lemma on_language_change_unknown self name :
  AVAILABLE_LANGUAGES !! name = None →
  (main_app_io.on_language_change rt self name).1 = self.
Proof.
  intros Hcode. unfold main_app_io.on_language_change. by rewrite Hcode.
Qed.

(** The settings hold the name once the adapter has taken the language. *)
Lemma on_language_change_settings self name code :
  AVAILABLE_LANGUAGES !! name = Some code →
  settings (main_app_io.on_language_change rt self name).1
  = match (ocr_utils_io.set_language rt (ocr_processor self) code).2 with
    | Value _ => set_language_value (settings self) (Some name)
    | Throws _ => settings self
    end.
Proof.
  intros Hcode. unfold main_app_io.on_language_change.
  rewrite Hcode, (language_codes_truthy name code) by done.
  destruct (ocr_utils_io.set_language rt (ocr_processor self) code)
    as [processor [[]|r]]; done.
Qed.

(** Setting the text of the connected combo box: the combo box and the
    adapter against those of [main_app], when the engine can be built. *)
Lemma select_combo connected self name :
  language_combo (main_app_io.language_combo_setCurrentText rt connected self name)
  = language_combo (main_app.language_combo_setCurrentText connected self name).
Proof.
  unfold main_app_io.language_combo_setCurrentText,
    main_app.language_combo_setCurrentText.
  destruct (connected && _); [|done].
  destruct (on_language_change_frame
              (set_language_combo self (setCurrentText (language_combo self) name))
              (currentText
                 (language_combo
                    (set_language_combo self
                       (setCurrentText (language_combo self) name)))))
    as (_ & -> & _).
  unfold main_app.on_language_change. by repeat case_match.
Qed.

Lemma select_processor self name :
  combo_lists_languages self →
  engines_available rt →
  ocr_processor (main_app_io.language_combo_setCurrentText rt true self name)
  = ocr_processor (main_app.language_combo_setCurrentText true self name).
Proof.
  intros Hitems Hbuilt.
  unfold main_app_io.language_combo_setCurrentText,
    main_app.language_combo_setCurrentText, setCurrentText.
  destruct (bool_decide (name ∈ items (language_combo self))) eqn:Hin;
    simpl; cycle 1.
  { rewrite bool_decide_eq_false_2 by (intros Hne; by apply Hne).
    by destruct self as [? ? ? ? ? ? ? [? ?] ? ? ?]. }
  apply bool_decide_eq_true_1 in Hin.
  case_bool_decide as Hne; simpl; [|done].
  rewrite Hitems in Hin. apply language_names_listed in Hin as [code Hcode].
  rewrite (on_language_change_processor _ name code) by done.
  rewrite (on_language_change_listed _ name code) by done. simpl.
  apply set_language_built. by apply (Hbuilt name).
Qed.

Lemma select_keeps_engine self name :
  engines_available rt →
  combo_lists_languages self → engine_follows_selection self →
  combo_lists_languages (main_app_io.language_combo_setCurrentText rt true self name)
  ∧ engine_follows_selection
      (main_app_io.language_combo_setCurrentText rt true self name).
Proof.
  intros Hbuilt Hitems Hinv.
  destruct (select_keeps_invariant self name Hitems Hinv) as [Hitems' Hinv'].
  unfold combo_lists_languages, engine_follows_selection in *.
  by rewrite select_combo, select_processor.
Qed.

(** The language code of the adapter follows the combo box whether the
    engine can be built or not. *)
Lemma select_keeps_language self name :
  combo_lists_languages self → language_follows_selection self →
  combo_lists_languages (main_app_io.language_combo_setCurrentText rt true self name)
  ∧ language_follows_selection
      (main_app_io.language_combo_setCurrentText rt true self name).
Proof.
  intros Hitems Hinv.
  unfold main_app_io.language_combo_setCurrentText, setCurrentText.
  destruct (bool_decide (name ∈ items (language_combo self))) eqn:Hin;
    simpl; cycle 1.
  { rewrite bool_decide_eq_false_2 by (intros Hne; by apply Hne).
    by destruct self as [? ? ? ? ? ? ? [? ?] ? ? ?]. }
  apply bool_decide_eq_true_1 in Hin.
  case_bool_decide as Hne; simpl.
  - pose proof Hin as Hin'.
    rewrite Hitems in Hin. apply language_names_listed in Hin as [code Hcode].
    set (self1 := set_language_combo self _).
    destruct (on_language_change_frame self1 name) as (_ & Hcombo & _).
    unfold combo_lists_languages, language_follows_selection.
    rewrite Hcombo, (on_language_change_processor _ name code) by done.
    split; [done|]. exists code. split; [done|].
    apply set_language_current_lang.
  - split; [done|].
    destruct Hinv as (code & Hcode & Hcur).
    exists code. simpl. by rewrite Hne.
Qed.

(** *** The capture and the scan *)

Lemma take_screenshot_effect_frame d self :
  let self' := (main_app_io.take_screenshot rt d self).1 in
  geometry self' = geometry self
  ∧ settings self' = settings self
  ∧ ocr_processor self' = ocr_processor self
  ∧ ocr_worker_thread self' = ocr_worker_thread self
  ∧ screenshot_label self' = screenshot_label self
  ∧ language_combo self' = language_combo self
  ∧ scan_button self' = scan_button self
  ∧ workers_started self' = workers_started self
  ∧ (files self' = files self
     ∨ ∃ image, files self'
                = <[DEFAULT_SCREENSHOT_PATH := PngImage image]> (files self)).
Proof.
  destruct self as [[gx gy gw gh] ? ? ? ? ? ? ? ? ? ?].
  unfold main_app_io.take_screenshot, main_app_io.take_screenshot_try; simpl.
  destruct (primaryScreen d); simpl; [|by repeat split; auto].
  destruct (grabWindow d _) as [image|e]; simpl; [|by repeat split; auto].
  destruct (save d image _) as [[]|e]; simpl; [|by repeat split; auto..].
  destruct (rt_print rt _) as [[]|[e|c]]; simpl; repeat split; eauto.
Qed.

Lemma scan_effect_frame d self :
  let self' := (main_app_io.scan_screen_and_process rt d self).1 in
  geometry self' = geometry self
  ∧ ocr_processor self' = ocr_processor self
  ∧ language_combo self' = language_combo self
  ∧ (files self' = files self
     ∨ ∃ image, files self'
                = <[DEFAULT_SCREENSHOT_PATH := PngImage image]> (files self)).
Proof.
  unfold main_app_io.scan_screen_and_process.
  pose proof (take_screenshot_effect_frame d
                (set_text_area (set_scan_button self false) "Taking screenshot..."))
    as (Hg & _ & Hp & _ & _ & Hc & _ & _ & Hf).
  destruct (main_app_io.take_screenshot rt d _) as [self1 taken]. simpl in *.
  unfold display_screenshot_thumbnail, start_worker, worker_is_running.
  repeat case_match; simpl; by rewrite ?Hg, ?Hp, ?Hc.
Qed.

(** *** The events *)

Lemma handle_keeps_engine self ev :
  engines_available rt →
  combo_lists_languages self → engine_follows_selection self →
  combo_lists_languages (main_app_io.handle rt self ev)
  ∧ engine_follows_selection (main_app_io.handle rt self ev).
Proof.
  intros Hbuilt Hitems Hinv. destruct ev as [d|name|text| |path content]; simpl.
  - destruct (scan_button self); [|done].
    pose proof (scan_effect_frame d self) as (_ & Hp & Hc & _).
    unfold combo_lists_languages, engine_follows_selection.
    by rewrite Hp, Hc.
  - by apply select_keeps_engine.
  - done.
  - done.
  - done.
Qed.

Lemma handle_all_keeps_engine self evs :
  engines_available rt →
  combo_lists_languages self → engine_follows_selection self →
  combo_lists_languages (main_app_io.handle_all rt self evs)
  ∧ engine_follows_selection (main_app_io.handle_all rt self evs).
Proof.
  intros Hbuilt. revert self.
  induction evs as [|ev evs IH]; intros self Hitems Hinv; [done|].
  destruct (handle_keeps_engine self ev Hbuilt Hitems Hinv) as [? ?].
  by apply IH.
Qed.

Lemma handle_keeps_language self ev :
  combo_lists_languages self → language_follows_selection self →
  combo_lists_languages (main_app_io.handle rt self ev)
  ∧ language_follows_selection (main_app_io.handle rt self ev).
Proof.
  intros Hitems Hinv. destruct ev as [d|name|text| |path content]; simpl.
  - destruct (scan_button self); [|done].
    pose proof (scan_effect_frame d self) as (_ & Hp & Hc & _).
    unfold combo_lists_languages, language_follows_selection.
    by rewrite Hp, Hc.
  - by apply select_keeps_language.
  - done.
  - done.
  - done.
Qed.

Lemma handle_all_keeps_language self evs :
  combo_lists_languages self → language_follows_selection self →
  combo_lists_languages (main_app_io.handle_all rt self evs)
  ∧ language_follows_selection (main_app_io.handle_all rt self evs).
Proof.
  revert self. induction evs as [|ev evs IH]; intros self Hitems Hinv; [done|].
  destruct (handle_keeps_language self ev Hitems Hinv) as [? ?].
  by apply IH.
Qed.

Lemma handle_files self ev path :
  path ≠ DEFAULT_SCREENSHOT_PATH →
  match ev with FileChanged _ _ => False | _ => True end →
  files (main_app_io.handle rt self ev) !! path = files self !! path.
Proof.
  intros Hpath Hev. destruct ev as [d|name|text| |p content]; simpl; try done.
  - destruct (scan_button self); [|done].
    destruct (scan_effect_frame d self) as (_ & _ & _ & [->|[image ->]]); [done|].
    by rewrite lookup_insert_ne.
  - unfold main_app_io.language_combo_setCurrentText.
    destruct (_ && _); [|done].
    by destruct (on_language_change_frame
                   (set_language_combo self
                      (setCurrentText (language_combo self) name))
                   (currentText
                      (language_combo
                         (set_language_combo self
                            (setCurrentText (language_combo self) name)))))
      as (_ & _ & -> & _).
Qed.

(** *** The start-up *)

Section startup.
Context {codec : GeometryCodec}.

Lemma load_settings_language_returns self self' :
  items (language_combo self) = AVAILABLE_LANGUAGES_items.*1 →
  currentText (language_combo self) = selected_at_startup (settings self) →
  main_app_io.load_settings_language rt self = Value self' →
  self' = main_app.load_settings_language self.
Proof.
  intros Hitems Htext. unfold selected_at_startup in Htext.
  unfold main_app_io.load_settings_language, main_app.load_settings_language.
  set (name := default DEFAULT_LANGUAGE (language_value (settings self))) in *.
  assert (∀ text, text = currentText (language_combo self) →
            main_app_io.language_combo_setCurrentText rt true self text = self
            ∧ main_app.language_combo_setCurrentText true self text = self)
    as Hsame.
  { intros text ->.
    unfold main_app_io.language_combo_setCurrentText,
      main_app.language_combo_setCurrentText, setCurrentText.
    destruct self as [? ? ? ? ? ? ? [? ?] ? ? ?]; simpl.
    destruct (bool_decide (_ ∈ _)); simpl;
      by rewrite bool_decide_eq_false_2 by (intros Hne; by apply Hne). }
  assert (∀ code,
            (let '(processor, ended) :=
               ocr_utils_io.set_language rt (ocr_processor self) code in
             _ ← ended; Value (set_ocr_processor self processor)) = Value self' →
            self' = set_ocr_processor self (set_language (ocr_processor self) code))
    as Hset.
  { intros code.
    pose proof (set_language_returns (ocr_processor self) code) as Hret.
    destruct (ocr_utils_io.set_language rt (ocr_processor self) code)
      as [processor [[]|r]]; simpl in *; [|done].
    intros [= <-]. by rewrite Hret. }
  destruct (AVAILABLE_LANGUAGES !! name) as [code|] eqn:Hcode.
  - rewrite bool_decide_eq_true_2 in Htext by eauto.
    destruct (Hsame name) as [-> ->]; [done|].
    case_bool_decide as Hdefault; [apply Hset|by intros [= <-]].
  - rewrite bool_decide_eq_false_2 in Htext by (by intros [? ?]).
    destruct (Hsame DEFAULT_LANGUAGE) as [-> ->]; [done|].
    apply Hset.
Qed.

(** A window that starts is the window of [main_app]. *)
Lemma startup_returns stored disk self :
  main_app_io.__init__ rt stored disk = Value self →
  self = main_app.__init__ stored disk.
Proof.
  unfold main_app_io.__init__, main_app.__init__.
  destruct (ocr_utils_io.__init__ rt DEFAULT_LANGUAGE_code) as [processor|r] eqn:Hinit;
    simpl; [|done].
  apply init_returns in Hinit. subst processor.
  assert (set_ocr_processor (new_window stored disk)
            (ocr_utils.__init__ DEFAULT_LANGUAGE_code)
          = new_window stored disk) as -> by done.
  pose proof (init_ui_sets stored disk) as (Hitems & Htext & Hproc & Hset & _).
  set (self0 := init_ui (new_window stored disk)) in *.
  unfold main_app_io.load_settings, main_app.load_settings.
  pose proof (load_settings_geometry_frame self0) as (Hs1 & Hp1 & Hc1 & _).
  set (self1 := load_settings_geometry self0) in *.
  destruct (main_app_io.load_settings_language rt self1) as [self2|r] eqn:Hlang;
    simpl; [|done].
  apply load_settings_language_returns in Hlang; cycle 1.
  { by rewrite Hc1. }
  { by rewrite Hc1, Hs1, Hset. }
  intros [= <-]. by rewrite Hlang.
Qed.
End startup.

(** *** The worker *)

(** [run] asks [predict] of the adapter's own engine only. *)
Lemma process_image_asks_own_engine fs predict self image_path :
  (∀ engine, ocr_instance self = Some engine →
             predict engine image_path = rt_predict rt engine image_path) →
  ocr_utils_io.process_image (with_predict rt predict) fs self image_path
  = ocr_utils_io.process_image rt fs self image_path.
Proof.
  intros Hsame.
  unfold ocr_utils_io.process_image, ocr_utils_io.process_image_body.
  destruct (ocr_instance self) as [engine|]; [|done].
  simpl. by rewrite (Hsame engine).
Qed.

End with_runtime.
End window_effect_facts.

(** ** The claims about the window, with the effects *)
Module window_effects.
Import ocr_utils main_app ocr_spec app_spec behaviour_spec io_spec.
Import string_facts ocr_facts app_facts capture_facts language_facts.
Import effect_facts adapter_effect_facts window_effect_facts.


(** A result that looks like markup is not shown as it is written. *)
Lemma markup_result_is_rendered :
  text_area (on_ocr_completed scanning_window "<b>Hello</b>") = "<b>Hello</b>"
  ∧ @toPlainText tags_are_markup (on_ocr_completed scanning_window "<b>Hello</b>")
    = "Hello".
Proof. by vm_compute. Qed.



Section startup.
Context {codec : GeometryCodec}.


(** Extra X14.  As long as every engine of the language table can be
    built, the worker consults only an engine configured with the code of
    the language selected in the combo box: what [predict] does on engines
    of another language has no effect on what [run] emits or raises. *)
Theorem worker_consults_engine_of_selected_language
    (rt : runtime) (stored : QSettings) (disk : gmap string file)
    (self : ScreenshotApp) (evs : list event)
    (predict : PaddleOCR -> string -> effect (option (list res_obj)))
    (worker : OCRWorker) :
  main_app_io.__init__ rt stored disk = Value self →
  engines_available rt →
  (∀ engine path,
     AVAILABLE_LANGUAGES
       !! currentText (language_combo (main_app_io.handle_all rt self evs))
     = Some (lang engine) →
     predict engine path = rt_predict rt engine path) →
  main_app_io.run (with_predict rt predict) (main_app_io.handle_all rt self evs) worker
  = main_app_io.run rt (main_app_io.handle_all rt self evs) worker.
Proof.
  intros ->%startup_returns Hbuilt Hsame.
  pose proof (startup_language stored disk) as (Hitems & _ & Hinv).
  destruct (handle_all_keeps_engine rt _ evs Hbuilt Hitems Hinv)
    as (_ & code & Hcode & _ & Hlang).
  unfold main_app_io.run.
  rewrite (process_image_asks_own_engine rt); [done|].
  intros engine Hengine. apply Hsame.
  rewrite Hengine in Hlang. simpl in Hlang. injection Hlang as ->. done.
Qed.
End startup.


Lemma worker_consults_engine_of_selected_language_witness :
  main_app_io.run
    (with_predict (settled mixed_regions) (predict_for "japan" mixed_regions))
    (main_app_io.handle_all (settled mixed_regions)
       (@main_app.__init__ sample_codec no_settings ∅) scan_events)
    {| image_path := DEFAULT_SCREENSHOT_PATH; isRunning := true |}
  = main_app_io.run (settled mixed_regions)
      (main_app_io.handle_all (settled mixed_regions)
         (@main_app.__init__ sample_codec no_settings ∅) scan_events)
      {| image_path := DEFAULT_SCREENSHOT_PATH; isRunning := true |}.
Proof.
  apply (@worker_consults_engine_of_selected_language sample_codec
           (settled mixed_regions) no_settings ∅
           (@main_app.__init__ sample_codec no_settings ∅) scan_events).
  - by vm_compute.
  - intros name code _. reflexivity.
  - intros engine path Hcode.
    assert (AVAILABLE_LANGUAGES
              !! currentText
                   (language_combo
                      (main_app_io.handle_all (settled mixed_regions)
                         (@main_app.__init__ sample_codec no_settings ∅)
                         scan_events))
            = Some "japan") as Hselected by (by vm_compute).
    rewrite Hselected in Hcode. injection Hcode as Hlang.
    unfold predict_for. rewrite <- Hlang. reflexivity.
Defined.

(** Extra X2.  [run] is never left by an exception of [Exception], and a
    text it emits is not empty.  With a path that is empty or names no
    file it emits the fixed error text.  Otherwise it emits the text
    [process_image] returns, the fixed message when [process_image] returns
    [None], and the critical-error text when an exception of [Exception]
    leaves [process_image]; what leaves [process_image] outside [Exception]
    leaves [run] too, and then nothing is emitted. *)
Theorem worker_emits_text
    (rt : runtime) (self : ScreenshotApp) (worker : OCRWorker) :
  (∀ e, main_app_io.run rt self worker ≠ Throws (OfException e))
  ∧ (∀ text, main_app_io.run rt self worker = Value text → text ≠ "")
  ∧ (image_path worker = "" ∨ files self !! image_path worker = None →
     main_app_io.run rt self worker
     = Value "Error: Screenshot path is invalid or file does not exist for OCR.")
  ∧ (image_path worker ≠ "" →
     is_Some (files self !! image_path worker) →
     main_app_io.run rt self worker
     = match ocr_utils_io.process_image rt (dom (files self))
               (ocr_processor self) (image_path worker) with
       | Value (Some text) => Value text
       | Value None =>
           Value "No text could be extracted or an error occurred during OCR. Check console for details."
       | Throws (OfException e) =>
           Value ("Critical error in OCR thread: " ++ exn_msg e)
       | Throws (OutsideException c) => Throws (OutsideException c)
       end).
Proof.
  assert (image_path worker ≠ "" →
          is_Some (files self !! image_path worker) →
          main_app_io.run rt self worker
          = match ocr_utils_io.process_image rt (dom (files self))
                    (ocr_processor self) (image_path worker) with
            | Value (Some text) => Value text
            | Value None =>
                Value "No text could be extracted or an error occurred during OCR. Check console for details."
            | Throws (OfException e) =>
                Value ("Critical error in OCR thread: " ++ exn_msg e)
            | Throws (OutsideException c) => Throws (OutsideException c)
            end) as Hgood.
  { intros Hpath%str_bool_true Hexists. unfold main_app_io.run, path_exists.
    rewrite Hpath, bool_decide_eq_true_2 by done. simpl.
    destruct (ocr_utils_io.process_image _ _ _ _) as [[text|]|[e|c]] eqn:Hp;
      simpl; try done.
    apply process_image_value_text in Hp as (engine & answer & _ & _ & _ & Hp).
    apply process_image_text_nonspace, has_nonspace_str_bool in Hp.
    by rewrite Hp. }
  assert (image_path worker = "" ∨ files self !! image_path worker = None →
          main_app_io.run rt self worker
          = Value "Error: Screenshot path is invalid or file does not exist for OCR.")
    as Hbad.
  { unfold main_app_io.run, path_exists. intros [->|Hnone]; [done|].
    rewrite (bool_decide_eq_false_2 (is_Some _)); cycle 1.
    { rewrite Hnone. by intros [? ?]. }
    by rewrite orb_true_r. }
  assert (image_path worker = "" ∨ files self !! image_path worker = None
          ∨ (image_path worker ≠ "" ∧ is_Some (files self !! image_path worker)))
    as Hcases.
  { destruct (decide (image_path worker = "")); [by left|].
    destruct (files self !! image_path worker) eqn:Hfile; [|by right; left].
    right. right. split; [done|by eexists]. }
  split; [|split; [|done]].
  - intros e.
    destruct Hcases as [Hc|[Hc|[Hc1 Hc2]]];
      [rewrite Hbad by auto; done..|].
    rewrite Hgood by done.
    by destruct (ocr_utils_io.process_image _ _ _ _) as [[text|]|[e'|c]].
  - intros text.
    destruct Hcases as [Hc|[Hc|[Hc1 Hc2]]];
      [rewrite Hbad by auto; by intros [= <-]..|].
    rewrite Hgood by done.
    destruct (ocr_utils_io.process_image _ _ _ _) as [[text'|]|[e'|c]] eqn:Hp;
      try (by intros [= <-]).
    intros [= <-].
    apply process_image_value_text in Hp as (engine & answer & _ & _ & _ & Hp).
    apply process_image_text_nonspace, has_nonspace_str_bool in Hp.
    by apply str_bool_true.
Qed.

Lemma worker_emits_text_witness :
  main_app_io.run (settled mixed_regions) scanning_window
    {| image_path := DEFAULT_SCREENSHOT_PATH; isRunning := true |}
  = Value ("a" ++ LF ++ "b" ++ LF ++ "---" ++ LF ++ "c")
  ∧ main_app_io.run interrupted scanning_window
      {| image_path := DEFAULT_SCREENSHOT_PATH; isRunning := true |}
    = Throws (OutsideException "KeyboardInterrupt").
Proof.
  split.
  - rewrite (proj2 (proj2 (proj2 (worker_emits_text (settled mixed_regions)
                                    scanning_window
                                    {| image_path := DEFAULT_SCREENSHOT_PATH;
                                       isRunning := true |})))).
    + by vm_compute.
    + done.
    + eexists. by vm_compute.
  - rewrite (proj2 (proj2 (proj2 (worker_emits_text interrupted
                                    scanning_window
                                    {| image_path := DEFAULT_SCREENSHOT_PATH;
                                       isRunning := true |})))).
    + by vm_compute.
    + done.
    + eexists. by vm_compute.
Defined.

(** Extra X11.  Of the files the window reaches through [os.path.exists],
    [QPixmap(path)] and [pixmap.save], the handlers change the fixed
    screenshot path only: every other path is left as it was by a scan and
    by all the events the window handles, apart from changes made outside
    the program; and this whether the handlers run to their end or are
    left by a [raise]. *)
Theorem only_screenshot_path_written
    (self : ScreenshotApp) (evs : list event) (path : string) :
  path ≠ DEFAULT_SCREENSHOT_PATH →
  Forall (fun ev => match ev with FileChanged _ _ => False | _ => True end) evs →
  files (handle_all self evs) !! path = files self !! path
  ∧ ∀ rt : runtime,
      files (main_app_io.handle_all rt self evs) !! path = files self !! path.
Proof.
  intros Hpath Hevs. split.
  - revert self.
    induction Hevs as [|ev evs Hev _ IH]; intros self; [done|].
    simpl. rewrite IH. destruct ev as [d|name|text| |p content]; simpl; try done.
    + destruct (scan_button self); [|done].
      destruct (window_behaviour.scan_files d self) as [->|[image ->]]; [done|].
      by rewrite lookup_insert_ne.
    + by destruct (window_behaviour.select_worker_frame true self name)
        as (_ & _ & _ & -> & _).
  - intros rt. revert self.
    induction Hevs as [|ev evs Hev _ IH]; intros self; [done|].
    simpl. rewrite IH. by apply handle_files.
Qed.

Lemma only_screenshot_path_written_witness :
  files (handle_all fresh_window
           [ScanClicked working_display; OcrFinished "x"; ThreadFinished;
            LanguageSelected "French"; ScanClicked second_display])
    !! "notes.txt"
  = files fresh_window !! "notes.txt".
Proof.
  apply (proj1 (only_screenshot_path_written fresh_window
                  [ScanClicked working_display; OcrFinished "x"; ThreadFinished;
                   LanguageSelected "French"; ScanClicked second_display]
                  "notes.txt" ltac:(done) ltac:(by repeat constructor))).
Defined.

End window_effects.
